(** * Debate orchestrator: selection, termination and result extraction

    A shallow embedding of [src/backend/patterns/debate_ai_foundry.py]
    (class [DebateOrchestrator]) together with the properties of its control
    loop.  Python objects are modelled by records, exceptions by a sum type,
    mutable attributes by explicit state passing, and the language-model calls
    by functions supplied by the environment. *)

From Stdlib Require Import ZArith List String Ascii Bool Lia.
From Stdlib Require Import Floats.SpecFloat.
Import ListNotations.
Local Open Scope string_scope.
Local Open Scope list_scope.
Local Open Scope Z_scope.

Set Implicit Arguments.

(* ===================================================================== *)
(** * Python preliminaries *)
(* ===================================================================== *)

Module Py.

(** The exceptions that the orchestrator can meet. *)
Inductive Exn : Type :=
| IndexError
| KeyError
| ValueError
| ServiceError (what : string)
| AgentExecutionException (what : string)
| AgentChatException (what : string).

(** A computation that either returns or raises. *)
Inductive result (A : Type) : Type :=
| Ok (a : A)
| Raise (e : Exn).
Arguments Ok {A} a.
Arguments Raise {A} e.

(** [xs[-1]]: the last element, [IndexError] on the empty list. *)
Fixpoint last_item {A} (xs : list A) : result A :=
  match xs with
  | [] => Raise IndexError
  | [x] => Ok x
  | _ :: rest => last_item rest
  end.

(** [xs[0]]. *)
Definition first_item {A} (xs : list A) : result A :=
  match xs with
  | [] => Raise IndexError
  | x :: _ => Ok x
  end.

(** ** Floats

    A Python [float] is an IEEE 754 binary64 number: 53 bits of precision,
    infinities at exponent 1024. *)
Definition float := spec_float.
Definition prec : Z := 53.
Definition emax : Z := 1024.

(** [x >= y] on floats; false as soon as one side is NaN. *)
Definition float_ge (x y : float) : bool := SFleb y x.

(** The float written [m * 10^e], correctly rounded (ties to even). *)
Definition float_of_decimal (neg : bool) (m : Z) (e : Z) : float :=
  match m with
  | Zpos p =>
      if 0 <=? e
      then binary_normalize prec emax (if neg then - (m * 10 ^ e) else m * 10 ^ e) 0 neg
      else SFdiv prec emax
             (S754_finite neg p 0)
             (S754_finite false (Z.to_pos (10 ^ (- e))) 0)
  | _ => S754_zero neg
  end.

(** ** [float(str)]

    The grammar is the one of the language reference:
<<
    floatvalue  ::= [sign] (floatnumber | "inf" | "infinity" | "nan")
    floatnumber ::= number [exponent]
    number      ::= [digitpart] "." digitpart | digitpart ["."]
    exponent    ::= ("e" | "E") [sign] digitpart
    digitpart   ::= digit (["_"] digit)*
>>
    surrounded by optional white space and read without regard to case.

    What follows is [float] on ASCII text: the digits are the ASCII digits
    and the white space that is dropped is the tab, the line feed, the
    vertical tab, the form feed, the carriage return and the space.  On
    other text [float] reads more (the decimal digits and the white space
    of Unicode); such text is outside this reader, and no property of the
    orchestrator below depends on how it is read. *)

Definition is_space (c : ascii) : bool :=
  let n := nat_of_ascii c in
  ((9 <=? n) && (n <=? 13) || (n =? 32))%nat.

(** ASCII text: every byte below 128. *)
Definition is_ascii_text (s : string) : Prop :=
  Forall (fun c => (nat_of_ascii c < 128)%nat) (list_ascii_of_string s).

Definition digit_of (c : ascii) : option Z :=
  let n := nat_of_ascii c in
  if ((48 <=? n) && (n <=? 57))%nat then Some (Z.of_nat n - 48) else None.

Definition lower (c : ascii) : ascii :=
  let n := nat_of_ascii c in
  if ((65 <=? n) && (n <=? 90))%nat then ascii_of_nat (n + 32) else c.

Fixpoint lstrip (cs : list ascii) : list ascii :=
  match cs with
  | c :: rest => if is_space c then lstrip rest else cs
  | [] => []
  end.

Definition strip (cs : list ascii) : list ascii :=
  rev (lstrip (rev (lstrip cs))).

(** [digits_tail acc n cs] reads [(["_"] digit)*] after a first digit:
    [acc] is the value read so far and [n] the number of digits. *)
Fixpoint digits_tail (acc : Z) (n : Z) (cs : list ascii) : Z * Z * list ascii :=
  match cs with
  | c :: rest =>
      match digit_of c with
      | Some d => digits_tail (10 * acc + d) (n + 1) rest
      | None =>
          if Ascii.eqb c "_"
          then match rest with
               | c' :: rest' =>
                   match digit_of c' with
                   | Some d => digits_tail (10 * acc + d) (n + 1) rest'
                   | None => (acc, n, cs)
                   end
               | [] => (acc, n, cs)
               end
          else (acc, n, cs)
      end
  | [] => (acc, n, cs)
  end.

(** [digitpart acc cs]: a digit part continuing the value [acc]; [None]
    when [cs] does not start with a digit. *)
Definition digitpart (acc : Z) (cs : list ascii) : option (Z * Z * list ascii) :=
  match cs with
  | c :: rest =>
      match digit_of c with
      | Some d => Some (digits_tail (10 * acc + d) 1 rest)
      | None => None
      end
  | [] => None
  end.

Definition sign (cs : list ascii) : bool * list ascii :=
  match cs with
  | c :: rest =>
      if Ascii.eqb c "-" then (true, rest)
      else if Ascii.eqb c "+" then (false, rest)
      else (false, cs)
  | [] => (false, cs)
  end.

(** [number cs]: mantissa, number of fraction digits, and what follows. *)
Definition number (cs : list ascii) : option (Z * Z * list ascii) :=
  match digitpart 0 cs with
  | Some (m, _, rest) =>
      match rest with
      | c :: rest' =>
          if Ascii.eqb c "."
          then match digitpart m rest' with
               | Some (m', k, rest'') => Some (m', k, rest'')
               | None => Some (m, 0, rest')
               end
          else Some (m, 0, rest)
      | [] => Some (m, 0, rest)
      end
  | None =>
      match cs with
      | c :: rest' =>
          if Ascii.eqb c "."
          then match digitpart 0 rest' with
               | Some (m', k, rest'') => Some (m', k, rest'')
               | None => None
               end
          else None
      | [] => None
      end
  end.

(** [exponent cs]: the value of an optional exponent, which must end the
    string. *)
Definition exponent (cs : list ascii) : option Z :=
  match cs with
  | [] => Some 0
  | c :: rest =>
      if Ascii.eqb (lower c) "e"
      then let '(neg, rest') := sign rest in
           match digitpart 0 rest' with
           | Some (x, _, []) => Some (if neg then - x else x)
           | _ => None
           end
      else None
  end.

Definition floatnumber (neg : bool) (cs : list ascii) : option float :=
  match number cs with
  | Some (m, k, rest) =>
      match exponent rest with
      | Some x => Some (float_of_decimal neg m (x - k))
      | None => None
      end
  | None => None
  end.

(** [float(s)] for ASCII text [s]: [None] stands for [ValueError], the only
    exception that [float] raises on a string. *)
Definition float_of_str (s : string) : option float :=
  let '(neg, body) := sign (strip (list_ascii_of_string s)) in
  let word := string_of_list_ascii (map lower body) in
  if String.eqb word "inf" || String.eqb word "infinity"
  then Some (S754_infinity neg)
  else if String.eqb word "nan"
  then Some S754_nan
  else floatnumber neg body.

End Py.

Import Py.

(* ===================================================================== *)
(** * Data model *)
(* ===================================================================== *)

(** [semantic_kernel.contents.utils.author_role.AuthorRole]. *)
Inductive AuthorRole : Type := system | user | assistant | tool | developer.

Definition AuthorRole_value (r : AuthorRole) : string :=
  match r with
  | system => "system"
  | user => "user"
  | assistant => "assistant"
  | tool => "tool"
  | developer => "developer"
  end.

(** [AuthorRole(s)]: [ValueError] on a string that names no role. *)
Definition AuthorRole_of (s : option string) : result AuthorRole :=
  match s with
  | Some s =>
      if String.eqb s "system" then Ok system
      else if String.eqb s "user" then Ok user
      else if String.eqb s "assistant" then Ok assistant
      else if String.eqb s "tool" then Ok tool
      else if String.eqb s "developer" then Ok developer
      else Raise ValueError
  | None => Raise ValueError
  end.

Definition AuthorRole_eqb (a b : AuthorRole) : bool :=
  String.eqb (AuthorRole_value a) (AuthorRole_value b).

(** A turn of the conversation: [ChatMessageContent(role, name, content)]. *)
Record ChatMessageContent : Type := {
  role : AuthorRole;
  name : option string;
  content : string
}.

(** A Python dictionary with string keys and string values, as the entries of
    [conversation_messages] and the result of [to_dict] are. *)
Definition dict : Type := list (string * string).

Fixpoint dict_get (d : dict) (k : string) : option string :=
  match d with
  | [] => None
  | (k', v) :: rest => if String.eqb k' k then Some v else dict_get rest k
  end.

(** [d[k]]: [KeyError] when the key is missing. *)
Definition dict_item (d : dict) (k : string) : result string :=
  match dict_get d k with
  | Some v => Ok v
  | None => Raise KeyError
  end.

(** [ChatMessageContent.to_dict()] for a text message: the role, the content,
    and the name when there is one. *)
Definition to_dict (m : ChatMessageContent) : dict :=
  [("role", AuthorRole_value (role m)); ("content", content m)]
  ++ match name m with
     | Some n => if String.eqb n "" then [] else [("name", n)]
     | None => []
     end.

(** The [name] that [ChatMessageContent(name=n)] keeps: an empty name is
    kept as no name. *)
Definition name_of (n : option string) : option string :=
  match n with
  | Some n' => if String.eqb n' "" then None else Some n'
  | None => None
  end.

(** [r.name == "Writer"]. *)
Definition name_is (n : string) (m : ChatMessageContent) : bool :=
  match name m with
  | Some n' => String.eqb n' n
  | None => false
  end.

(** What invoking a kernel function returns: [FunctionResult.value] is [None]
    or the list of messages of the completion. *)
Record FunctionResult : Type := {
  value : option (list ChatMessageContent)
}.

(** [str(res_val)] where [res_val] is a [FunctionResult] or [None]: the
    content of the first message, the empty string without one. *)
Definition str_result (res_val : option FunctionResult) : string :=
  match res_val with
  | None => "None"
  | Some fr =>
      match value fr with
      | Some (m :: _) => content m
      | _ => ""
      end
  end.

(** A participant of the debate. *)
Record Agent : Type := {
  agent_id : string;
  agent_name : string;
  agent_description : string
}.

(** [datetime.datetime]: a naive local time. *)
Record datetime : Type := {
  year : Z; month : Z; day : Z;
  hour : Z; minute : Z; second : Z; microsecond : Z
}.

(** What the generator [process_conversation] yields: both are Python strings,
    the status text as it is and the final reply through [json.dumps]. *)
Inductive Yielded : Type :=
| PlainText (text : string)
| JsonDumps (reply : dict).

Definition is_status (y : Yielded) : bool :=
  match y with PlainText _ => true | JsonDumps _ => false end.

(** What a run does besides computing: log records, calls of the language
    models, the tracing span, and the values yielded to the caller. *)
Inductive Effect : Type :=
| LogSpeakerSelected (output : FunctionResult)
| LogIteration (iteration maximum_iterations : Z)
| LogCriticEvaluation (res_val : string)
| LogShouldTerminateError
| LogShouldTerminate (should_terminate : bool)
| LogAgent (message : dict)
| LogNextAction (next_action : string)
| KernelInvoke (function_name : string) (argument : string)
| AgentInvoke (agent : string)
| StartSpan (session_id : string)
| Yield (y : Yielded).

(* ===================================================================== *)
(** * Programs: state, effects and exceptions *)
(* ===================================================================== *)

(** A program over a mutable object of type [St]: it returns the object as it
    leaves it, the effects in the order they happened, and a value or the
    exception raised.  Mutations and effects before a [raise] are kept. *)
Definition prog (St A : Type) : Type := St -> St * list Effect * result A.

Definition ret {St A} (a : A) : prog St A := fun s => (s, [], Ok a).

Definition bind {St A B} (p : prog St A) (k : A -> prog St B) : prog St B :=
  fun s =>
    match p s with
    | (s1, t1, Ok a) => let '(s2, t2, r) := k a s1 in (s2, t1 ++ t2, r)
    | (s1, t1, Raise e) => (s1, t1, Raise e)
    end.

Definition get {St} : prog St St := fun s => (s, [], Ok s).
Definition put {St} (s : St) : prog St unit := fun _ => (s, [], Ok tt).
Definition emit {St} (e : Effect) : prog St unit := fun s => (s, [e], Ok tt).
Definition lift {St A} (r : result A) : prog St A := fun s => (s, [], r).
Definition raise {St A} (e : Exn) : prog St A := lift (Raise e).

(** Run a program over a part of the object. *)
Definition zoom {St Sub A} (proj : St -> Sub) (upd : Sub -> St -> St)
    (p : prog Sub A) : prog St A :=
  fun s => let '(sub, t, r) := p (proj s) in (upd sub s, t, r).

(** [try: p except Exception as ex: raise e from ex]. *)
Definition reraise_as {St A} (e : Exn) (p : prog St A) : prog St A :=
  fun s =>
    match p s with
    | (s1, t1, Raise _) => (s1, t1, Raise e)
    | r => r
    end.

Declare Scope prog_scope.
Delimit Scope prog_scope with prog.
Notation "x <- p ;; k" := (bind p (fun x => k))
  (at level 61, p at next level, right associativity) : prog_scope.
Notation "p ;; k" := (bind p (fun _ => k))
  (at level 61, right associativity) : prog_scope.
Local Open Scope prog_scope.

Definition state_of {St A} (r : St * list Effect * result A) : St := fst (fst r).
Definition effects_of {St A} (r : St * list Effect * result A) : list Effect := snd (fst r).
Definition outcome_of {St A} (r : St * list Effect * result A) : result A := snd r.

(** The values yielded, in order. *)
Fixpoint yields (t : list Effect) : list Yielded :=
  match t with
  | [] => []
  | Yield y :: rest => y :: yields rest
  | _ :: rest => yields rest
  end.

(* ===================================================================== *)
(** * The orchestrator *)
(* ===================================================================== *)

(** What is outside the program: the language models behind the kernel and
    the agents, each call of which returns what the service answers, or
    raises, and the interpreter's [float].  The services are set up with
    [temperature=0], and an answer is taken to be a function of the
    request. *)
Record Services : Type := {
  (** [kernel.invoke(function=termination_function, arguments)], from the
      text bound to [$evaluation]; the result of [Kernel.invoke] is a
      [FunctionResult] or [None] *)
  termination_function : string -> result (option FunctionResult);
  (** the [SpeakerSelector] prompt function, from the agents and the history *)
  selection_function : list Agent -> list ChatMessageContent -> result FunctionResult;
  (** the reply of an agent to the history *)
  agent_reply : Agent -> list ChatMessageContent -> result string;
  (** [utils.util.describe_next_action(kernel, settings, messages)] *)
  describe_next_action : list dict -> result string;
  (** the builtin [float(s)] on a [str]: the float it returns, [None] when it
      raises [ValueError]; on ASCII text it is [Py.float_of_str] *)
  float_of_text : string -> option float
}.

(** ** Termination strategy *)

(** The fields of [CompletionTerminationStrategy]: [agents] and
    [maximum_iterations] come from [TerminationStrategy], [iteration] is its
    own and starts at 0. *)
Record CompletionTerminationStrategy : Type := {
  agents : list Agent;
  maximum_iterations : Z;
  iteration : Z
}.

Definition set_iteration (i : Z) (self : CompletionTerminationStrategy) :
    CompletionTerminationStrategy :=
  {| agents := agents self;
     maximum_iterations := maximum_iterations self;
     iteration := i |}.

(** The status that opens every stream. *)
Definition initial_status : string := "WRITER: Prepares the initial draft".

(** The literal [8.0]. *)
Definition passing_score : float := S754_finite false 4503599627370496 (-49).

Section Orchestrator.

Variable svc : Services.

(** [CompletionTerminationStrategy.should_agent_terminate(self, agent, history)]. *)
Definition should_agent_terminate (agent : Agent) (history : list ChatMessageContent) :
    prog CompletionTerminationStrategy bool :=
  self <- get ;;
  put (set_iteration (iteration self + 1) self) ;;
  self <- get ;;
  emit (LogIteration (iteration self) (maximum_iterations self)) ;;
  latest <- lift (last_item history) ;;
  let evaluation := content latest in
  emit (KernelInvoke "TerminationEvaluator" evaluation) ;;
  res_val <- lift (termination_function svc evaluation) ;;
  emit (LogCriticEvaluation (str_result res_val)) ;;
  should_terminate <-
    match float_of_text svc (str_result res_val) with
    | Some score => ret (float_ge score passing_score)
    | None => emit LogShouldTerminateError ;; ret false
    end ;;
  emit (LogShouldTerminate should_terminate) ;;
  ret should_terminate.

(** [create_termination_strategy(self, agents, maximum_iterations)]. *)
Definition create_termination_strategy (agents : list Agent) (maximum_iterations : Z) :
    CompletionTerminationStrategy :=
  {| agents := agents; maximum_iterations := maximum_iterations; iteration := 0 |}.

(** ** Selection strategy *)

(** [parse_selection_output(output)], the closure over [default_agent]. *)
Definition parse_selection_output {St} (default_agent : Agent) (output : FunctionResult) :
    prog St string :=
  emit (LogSpeakerSelected output) ;;
  match value output with
  | Some v => m <- lift (first_item v) ;; ret (content m)
  | None => ret (agent_name default_agent)
  end.

(** The fields of [KernelFunctionSelectionStrategy] that the orchestrator
    sets. *)
Record KernelFunctionSelectionStrategy : Type := {
  result_parser : FunctionResult -> prog unit string
}.

(** [create_selection_strategy(self, agents, default_agent)]. *)
Definition create_selection_strategy (agents : list Agent) (default_agent : Agent) :
    KernelFunctionSelectionStrategy :=
  {| result_parser := parse_selection_output default_agent |}.

(** ** The group chat *)

Record AgentGroupChat : Type := {
  chat_agents : list Agent;
  selection_strategy : KernelFunctionSelectionStrategy;
  termination_strategy : CompletionTerminationStrategy;
  history : list ChatMessageContent;
  is_complete : bool
}.

Definition set_termination_strategy (ts : CompletionTerminationStrategy)
    (chat : AgentGroupChat) : AgentGroupChat :=
  {| chat_agents := chat_agents chat;
     selection_strategy := selection_strategy chat;
     termination_strategy := ts;
     history := history chat;
     is_complete := is_complete chat |}.

Definition set_history (h : list ChatMessageContent) (chat : AgentGroupChat) :
    AgentGroupChat :=
  {| chat_agents := chat_agents chat;
     selection_strategy := selection_strategy chat;
     termination_strategy := termination_strategy chat;
     history := h;
     is_complete := is_complete chat |}.

Definition set_is_complete (b : bool) (chat : AgentGroupChat) : AgentGroupChat :=
  {| chat_agents := chat_agents chat;
     selection_strategy := selection_strategy chat;
     termination_strategy := termination_strategy chat;
     history := history chat;
     is_complete := b |}.

(** [create_agent_group_chat(self)]; the two agents are what the YAML
    loaders return. *)
Definition create_agent_group_chat (writer critic : Agent) : AgentGroupChat :=
  let agents := [writer; critic] in
  {| chat_agents := agents;
     selection_strategy := create_selection_strategy agents critic;
     termination_strategy := create_termination_strategy [critic] 6;
     history := [];
     is_complete := false |}.

(** ** The framework methods that the orchestrator drives

    [AgentGroupChat], [TerminationStrategy] and
    [KernelFunctionSelectionStrategy] belong to the Semantic Kernel framework,
    not to this repository.  What follows is the part of their behaviour that
    [process_conversation] relies on, for agents that answer each invocation
    with one assistant message under their own name.  The framework tells
    agents apart by [id]. *)

(** [TerminationStrategy.should_terminate(agent, history)]: an agent outside
    a non-empty [agents] list is out of scope; otherwise the decision is
    [should_agent_terminate]. *)
Definition should_terminate (agent : Agent) (history : list ChatMessageContent) :
    prog CompletionTerminationStrategy bool :=
  self <- get ;;
  if negb (Nat.eqb (List.length (agents self)) 0)
     && negb (existsb (fun a => String.eqb (agent_id a) (agent_id agent)) (agents self))
  then ret false
  else should_agent_terminate agent history.

(** [KernelFunctionSelectionStrategy.select_agent(agents, history)]: invoke
    the function, parse its result, look the name up among the agents. *)
Definition select_agent (strategy : KernelFunctionSelectionStrategy)
    (agents : list Agent) (history : list ChatMessageContent) : prog unit Agent :=
  emit (KernelInvoke "SpeakerSelector" "") ;;
  output <- reraise_as (AgentExecutionException "Strategy failed to execute function.")
              (lift (selection_function svc agents history)) ;;
  selected <- result_parser strategy output ;;
  if String.eqb selected ""
  then raise (AgentExecutionException "Strategy unable to determine next agent.")
  else match find (fun a => String.eqb (agent_name a) selected) agents with
       | Some a => ret a
       | None => raise (AgentExecutionException "Strategy unable to select next agent.")
       end.

(** [AgentChat.invoke_agent(agent)]: the reply is appended to the history. *)
Definition invoke_agent (agent : Agent) : prog AgentGroupChat ChatMessageContent :=
  emit (AgentInvoke (agent_name agent)) ;;
  chat <- get ;;
  text <- lift (agent_reply svc agent (history chat)) ;;
  let message := {| role := assistant; name := Some (agent_name agent); content := text |} in
  put (set_history (history chat ++ [message]) chat) ;;
  ret message.

(** One round of the loop of [AgentGroupChat.invoke()], up to its [yield]:
    select, invoke, evaluate termination on assistant messages. *)
Definition invoke_round : prog AgentGroupChat ChatMessageContent :=
  chat <- get ;;
  selected <- reraise_as (AgentChatException "Failed to select agent")
                (zoom (fun _ => tt) (fun _ c => c)
                   (select_agent (selection_strategy chat) (chat_agents chat) (history chat))) ;;
  message <- invoke_agent selected ;;
  (if AuthorRole_eqb (role message) assistant
   then chat <- get ;;
        stop <- zoom termination_strategy set_termination_strategy
                  (should_terminate selected (history chat)) ;;
        chat <- get ;;
        put (set_is_complete stop chat)
   else ret tt) ;;
  ret message.

(** [AgentChat.add_chat_messages(messages)]. *)
Definition add_chat_messages (messages : list ChatMessageContent) : prog AgentGroupChat unit :=
  chat <- get ;;
  put (set_history (history chat ++ messages) chat).

(** [AgentChat.get_chat_messages()]: the history, most recent message
    first. *)
Definition get_chat_messages (chat : AgentGroupChat) : list ChatMessageContent :=
  rev (history chat).

(** ** [process_conversation] *)

(** The local state of one call: the chat it created and [messages]. *)
Record Session : Type := {
  agent_group_chat : AgentGroupChat;
  messages : list dict
}.

Definition set_agent_group_chat (c : AgentGroupChat) (s : Session) : Session :=
  {| agent_group_chat := c; messages := messages s |}.

Definition set_messages (ms : list dict) (s : Session) : Session :=
  {| agent_group_chat := agent_group_chat s; messages := ms |}.

(** The list comprehension that loads the chat history: entries whose role is
    ["assistant"] or ["user"] are kept; [m['role']] needs the key. *)
Fixpoint load_chat_history (conversation_messages : list dict) :
    result (list ChatMessageContent) :=
  match conversation_messages with
  | [] => Ok []
  | d :: rest =>
      match dict_item d "role" with
      | Raise e => Raise e
      | Ok r =>
          if String.eqb r "assistant" || String.eqb r "user"
          then match AuthorRole_of (dict_get d "role"), load_chat_history rest with
               | Ok ar, Ok ms =>
                   Ok ({| role := ar;
                          name := name_of (dict_get d "name");
                          content := match dict_get d "content" with
                                     | Some c => c
                                     | None => ""
                                     end |} :: ms)
               | Raise e, _ => Raise e
               | _, Raise e => Raise e
               end
          else load_chat_history rest
      end
  end.

(** Decimal digits, zero padded, as [strftime] writes them. *)
Definition digit_char (n : Z) : ascii := ascii_of_nat (48 + Z.to_nat (n mod 10)).

Definition pad2 (n : Z) : string :=
  String (digit_char (n / 10)) (String (digit_char n) "").

Definition pad4 (n : Z) : string :=
  String (digit_char (n / 1000)) (String (digit_char (n / 100)) (pad2 n)).

(** [t.strftime("%Y-%m-%d_%H:%M:%S")]. *)
Definition strftime (t : datetime) : string :=
  (pad4 (year t) ++ "-" ++ pad2 (month t) ++ "-" ++ pad2 (day t) ++ "_"
   ++ pad2 (hour t) ++ ":" ++ pad2 (minute t) ++ ":" ++ pad2 (second t))%string.

(** [session_id = f"{user_id}-{current_time}"]. *)
Definition session_id (user_id : string) (now : datetime) : string :=
  (user_id ++ "-" ++ strftime now)%string.

(** The body of [async for a in agent_group_chat.invoke():]. *)
Definition on_message (a : ChatMessageContent) : prog Session unit :=
  emit (LogAgent (to_dict a)) ;;
  s <- get ;;
  put (set_messages (messages s ++ [to_dict a]) s) ;;
  s <- get ;;
  next_action <- lift (describe_next_action svc (messages s)) ;;
  emit (LogNextAction next_action) ;;
  emit (Yield (PlainText next_action)).

(** [async for a in agent_group_chat.invoke(): ...]: the generator runs
    [for _ in range(maximum_iterations)], yields the message of each round to
    the body, and breaks once [is_complete] is set. *)
Fixpoint invoke_loop (rounds : nat) : prog Session unit :=
  match rounds with
  | O => ret tt
  | S rounds' =>
      a <- zoom agent_group_chat set_agent_group_chat invoke_round ;;
      on_message a ;;
      s <- get ;;
      if is_complete (agent_group_chat s) then ret tt else invoke_loop rounds'
  end.

(** The first part of [process_conversation]: everything up to the end of
    the [with tracer.start_as_current_span(session_id)] block. *)
Definition run_debate (user_id : string) (conversation_messages : list dict)
    (now : datetime) : prog Session unit :=
  chat_history <- lift (load_chat_history conversation_messages) ;;
  zoom agent_group_chat set_agent_group_chat (add_chat_messages chat_history) ;;
  emit (StartSpan (session_id user_id now)) ;;
  emit (Yield (PlainText initial_status)) ;;
  s <- get ;;
  (if is_complete (agent_group_chat s)
   then raise (AgentChatException "Chat is already complete.")
   else ret tt) ;;
  invoke_loop (Z.to_nat (maximum_iterations (termination_strategy (agent_group_chat s)))).

(** The last part: pick the reply and yield it. *)
Definition yield_reply : prog Session unit :=
  s <- get ;;
  let response := rev (get_chat_messages (agent_group_chat s)) in
  r <- lift (last_item (filter (name_is "Writer") response)) ;;
  let reply := to_dict r in
  emit (Yield (JsonDumps reply)).

(** The locals of a call once the two loaders have returned: the chat that
    [create_agent_group_chat] makes of their agents, and no message yet.
    The loaders themselves, which can raise, are in
    [process_conversation_call]. *)
Definition new_session (writer critic : Agent) : Session :=
  {| agent_group_chat := create_agent_group_chat writer critic; messages := [] |}.

(** [process_conversation(self, user_id, conversation_messages)], called at
    local time [now]: what it leaves, what it does and yields, and whether it
    returns or raises. *)
Definition process_conversation (writer critic : Agent) (user_id : string)
    (conversation_messages : list dict) (now : datetime) :
    Session * list Effect * result unit :=
  (run_debate user_id conversation_messages now ;; yield_reply)
    (new_session writer critic).

End Orchestrator.

(** ** What the chat of a call keeps

    The chat that [create_agent_group_chat] returns, later in its life: the
    roster, the selection strategy, the agents of the termination strategy
    and its cap stay what they were; the history, the completion flag and the
    iteration counter move. *)
Definition orchestrated (writer critic : Agent) (chat : AgentGroupChat) : Prop :=
  chat_agents chat = [writer; critic]
  /\ selection_strategy chat = create_selection_strategy [writer; critic] critic
  /\ agents (termination_strategy chat) = [critic]
  /\ maximum_iterations (termination_strategy chat) = 6.

(** The effects of a termination evaluation. *)
Definition is_evaluation (e : Effect) : bool :=
  match e with
  | LogIteration _ _ | LogCriticEvaluation _ | LogShouldTerminateError
  | LogShouldTerminate _ => true
  | KernelInvoke function_name _ => String.eqb function_name "TerminationEvaluator"
  | _ => false
  end.

(* ===================================================================== *)
(** * Construction *)
(* ===================================================================== *)

(** [str(v)], and [v] inside an f-string, for what [os.getenv] returns:
    the value, or [None] when the variable is not set. *)
Definition str_env (v : option string) : string :=
  match v with
  | Some s => s
  | None => "None"
  end.

(** [s.strip(c)] for one character [c]. *)
Fixpoint lstrip_char (c : ascii) (cs : list ascii) : list ascii :=
  match cs with
  | x :: rest => if Ascii.eqb x c then lstrip_char c rest else cs
  | [] => []
  end.

Definition strip_char (c : ascii) (s : string) : string :=
  string_of_list_ascii
    (rev (lstrip_char c (rev (lstrip_char c (list_ascii_of_string s))))).

(** The endpoint of a chat client in [__init__]:
    [f"{str(endpoint).strip('/')}/openai/deployments/{deployment_name}"]. *)
Definition deployment_endpoint (endpoint deployment_name : option string) : string :=
  (strip_char "/" (str_env endpoint) ++ "/openai/deployments/"
   ++ str_env deployment_name)%string.

(** What [__init__] reads from the environment and keeps: the endpoints of
    the two chat clients, the API version they share, and the resource
    group.  Both execution settings have [temperature=0]. *)
Record DebateOrchestrator : Type := {
  executor_endpoint : string;
  utility_endpoint : string;
  api_version : option string;
  resourceGroup : option string
}.

(** [DebateOrchestrator.__init__(self)], from [os.environ]. *)
Definition DebateOrchestrator_init (environ : dict) : DebateOrchestrator :=
  let endpoint := dict_get environ "AZURE_OPENAI_ENDPOINT" in
  let api_version := dict_get environ "AZURE_OPENAI_API_VERSION" in
  let executor_deployment_name := dict_get environ "EXECUTOR_AZURE_OPENAI_DEPLOYMENT_NAME" in
  let utility_deployment_name := dict_get environ "UTILITY_AZURE_OPENAI_DEPLOYMENT_NAME" in
  {| executor_endpoint := deployment_endpoint endpoint executor_deployment_name;
     utility_endpoint := deployment_endpoint endpoint utility_deployment_name;
     api_version := api_version;
     resourceGroup := dict_get environ "AZURE_RESOURCE_GROUP" |}.

(** What the two loaders called by [create_agent_group_chat] return:
    [create_agent_from_yaml] for the Writer, then
    [create_ai_foundry_agent_from_yaml] for the Critic; each gives an agent
    or raises (a definition file that cannot be read, an agent that cannot
    be provisioned). *)
Record Loaders : Type := {
  create_agent_from_yaml : result Agent;
  create_ai_foundry_agent_from_yaml : result Agent
}.

(** [process_conversation] from its first statement,
    [agent_group_chat = await self.create_agent_group_chat()]: what the
    loaders raise is raised before anything else is done; once they have
    returned the call goes on with the chat of [create_agent_group_chat].
    The result is what the call does and yields, and whether it returns or
    raises. *)
Definition process_conversation_call (loaders : Loaders) (svc : Services)
    (user_id : string) (conversation_messages : list dict) (now : datetime) :
    list Effect * result unit :=
  match create_agent_from_yaml loaders with
  | Raise e => ([], Raise e)
  | Ok writer =>
      match create_ai_foundry_agent_from_yaml loaders with
      | Raise e => ([], Raise e)
      | Ok critic =>
          let r := process_conversation svc writer critic user_id
                     conversation_messages now in
          (effects_of r, outcome_of r)
      end
  end.

(** [sep.join(xs)]. *)
Fixpoint join (sep : string) (xs : list string) : string :=
  match xs with
  | [] => ""
  | [x] => x
  | x :: rest => (x ++ sep ++ join sep rest)%string
  end.

Definition newline : string := String (ascii_of_nat 10) "".

(** [definitions] in [create_selection_strategy]:
    ["\n".join([f"{agent.name}: {agent.description}" for agent in agents])]. *)
Definition definitions (agents : list Agent) : string :=
  join newline
    (map (fun agent => (agent_name agent ++ ": " ++ agent_description agent)%string) agents).

(** ** Reading aids *)

(** The entries of [conversation_messages] that the comprehension keeps. *)
Definition entry_kept (d : dict) : bool :=
  match dict_get d "role" with
  | Some r => String.eqb r "assistant" || String.eqb r "user"
  | None => false
  end.

(** The message that the comprehension builds from a kept entry. *)
Definition entry_message (d : dict) : ChatMessageContent :=
  {| role := match dict_get d "role" with
             | Some r => if String.eqb r "user" then user else assistant
             | None => assistant
             end;
     name := name_of (dict_get d "name");
     content := match dict_get d "content" with
                | Some c => c
                | None => ""
                end |}.

(** The values that a [datetime] can hold. *)
Definition valid_datetime (t : datetime) : Prop :=
  1 <= year t <= 9999 /\ 1 <= month t <= 12 /\ 1 <= day t <= 31
  /\ 0 <= hour t <= 23 /\ 0 <= minute t <= 59 /\ 0 <= second t <= 59
  /\ 0 <= microsecond t <= 999999.

(** A turn of the debate: an assistant message under the name of an agent of
    the roster. *)
Definition turn_of (roster : list Agent) (m : ChatMessageContent) : Prop :=
  role m = assistant /\ exists a, In a roster /\ name m = Some (agent_name a).

(* ===================================================================== *)
(** * Concrete debates *)
(* ===================================================================== *)

(** The reference roster. *)
Definition the_writer : Agent :=
  {| agent_id := "writer-1"; agent_name := "Writer";
     agent_description := "Writes and revises the draft" |}.

Definition the_critic : Agent :=
  {| agent_id := "critic-1"; agent_name := "Critic";
     agent_description := "Scores the draft" |}.

(** A completion made of one message. *)
Definition answer (text : string) : FunctionResult :=
  {| value := Some [ {| role := assistant; name := None; content := text |} ] |}.

(** Writer first, then whoever did not speak last. *)
Definition alternate (history : list ChatMessageContent) : string :=
  match last_item history with
  | Ok m => if name_is "Writer" m then "Critic" else "Writer"
  | Raise _ => "Writer"
  end.

(** Services that never fail: [pick] names the next speaker and the
    termination function always answers [score]. *)
Definition scripted (pick : list ChatMessageContent -> string) (score : string) : Services :=
  {| termination_function := fun _ => Ok (Some (answer score));
     selection_function := fun _ history => Ok (answer (pick history));
     agent_reply := fun a _ => Ok ("Reply of " ++ agent_name a)%string;
     describe_next_action := fun _ => Ok "CRITIC: Reviews the draft";
     float_of_text := float_of_str |}.

Definition a_critique : ChatMessageContent :=
  {| role := assistant; name := Some "Critic"; content := "Solid draft. Score: 9/10" |}.

Definition a_draft : ChatMessageContent :=
  {| role := assistant; name := Some "Writer"; content := "Reply of Writer" |}.

Definition morning : datetime :=
  {| year := 2024; month := 1; day := 5;
     hour := 7; minute := 3; second := 9; microsecond := 100000 |}.

Definition same_second : datetime :=
  {| year := 2024; month := 1; day := 5;
     hour := 7; minute := 3; second := 9; microsecond := 900000 |}.

(** The debate of the reference scenario: the speakers alternate, the drafts
    are numbered by the length of the history they answer, the critiques are
    the bare scores of [scores] in turn (7 once they are used up), and the
    extraction model returns the critique as it is. *)
Definition scored (scores : list string) : Services :=
  {| termination_function := fun evaluation => Ok (Some (answer evaluation));
     selection_function := fun _ history => Ok (answer (alternate history));
     agent_reply := fun a history =>
       if String.eqb (agent_name a) "Writer"
       then Ok ("Draft " ++ pad2 (Z.of_nat (List.length history)))%string
       else Ok (nth (Nat.div2 (List.length history)) scores "7");
     describe_next_action := fun _ => Ok "CRITIC: Reviews the draft";
     float_of_text := float_of_str |}.

(** Services whose extraction model is out of reach. *)
Definition extraction_down : Services :=
  {| termination_function := fun _ => Raise (ServiceError "rate limit");
     selection_function := fun _ history => Ok (answer (alternate history));
     agent_reply := fun a _ => Ok ("Reply of " ++ agent_name a)%string;
     describe_next_action := fun _ => Ok "CRITIC: Reviews the draft";
     float_of_text := float_of_str |}.

(** [n] calls of a program in a row, with the values they return. *)
Fixpoint repeat_prog {St A} (n : nat) (p : prog St A) : prog St (list A) :=
  match n with
  | O => ret []
  | S n' => a <- p ;; rest <- repeat_prog n' p ;; ret (a :: rest)
  end.

(* ===================================================================== *)
(** * Tactics *)
(* ===================================================================== *)

(** Unfolds the operations of [prog]. *)
Ltac run :=
  unfold bind, get, put, emit, lift, raise, ret, zoom, reraise_as,
    state_of, effects_of, outcome_of in *; simpl in *.

(** Case analysis on what a program branches on: the scrutinee that is
    picked contains no other case analysis. *)
Ltac scrutinee_of t :=
  lazymatch t with
  | context [match ?y with _ => _ end] => scrutinee_of y
  | _ => t
  end.

Ltac case_step :=
  lazymatch goal with
  | |- context [match ?y with _ => _ end] =>
      let x := scrutinee_of y in destruct x eqn:?; simpl
  end.

(* ===================================================================== *)
(** * Properties *)
(* ===================================================================== *)

(** ** The float reader on the answers that matter *)

Example float_of_str_threshold : float_of_str "8.0" = Some passing_score.
Proof. reflexivity. Qed.

Example float_of_str_no_score : float_of_str "Great work, no score given." = None.
Proof. reflexivity. Qed.

Example float_of_str_fraction : float_of_str "6/10" = None.
Proof. reflexivity. Qed.

Example float_of_str_None : float_of_str (str_result None) = None.
Proof. reflexivity. Qed.

Example float_of_str_unit_separator :
  float_of_str (String (ascii_of_nat 31) "8.5") = None.
Proof. reflexivity. Qed.

Example load_chat_history_empty_name :
  load_chat_history [ [("role", "user"); ("name", ""); ("content", "Hello")] ]
  = Ok [ {| role := user; name := None; content := "Hello" |} ].
Proof. reflexivity. Qed.

Example float_of_str_padded :
  option_map (fun x => float_ge x passing_score) (float_of_str " 7.5 ") = Some false.
Proof. reflexivity. Qed.

(** On a whole score from 0 to 10 the comparison with [8.0] is the comparison
    of the integers. *)
Lemma whole_score_passes (n : Z) :
  0 <= n <= 10 ->
  float_ge (float_of_decimal false n 0) passing_score = (8 <=? n).
Proof.
  intros H.
  assert (All : Forall (fun k : nat =>
                  float_ge (float_of_decimal false (Z.of_nat k) 0) passing_score
                  = (8 <=? Z.of_nat k)) (seq 0 11)).
  { repeat constructor. }
  rewrite Forall_forall in All.
  specialize (All (Z.to_nat n)). rewrite Z2Nat.id in All by lia.
  apply All, in_seq. lia.
Qed.

(** ** The reference scenarios *)

(** Scores 5, 6, 9: the debate stops after the third critique, six turns
    long; the reply is the third draft, not the last turn; the counter of the
    evaluator stands at 3. *)
Example scenario_scores_5_6_9 :
  let r := process_conversation (scored ["5"; "6"; "9"]) the_writer the_critic
             "alice" [] morning in
  outcome_of r = Ok tt
  /\ map content (history (agent_group_chat (state_of r)))
     = ["Draft 00"; "5"; "Draft 02"; "6"; "Draft 04"; "9"]
  /\ last_item (yields (effects_of r))
     = Ok (JsonDumps [("role", "assistant"); ("content", "Draft 04"); ("name", "Writer")])
  /\ List.length (yields (effects_of r)) = 8%nat
  /\ iteration (termination_strategy (agent_group_chat (state_of r))) = 3
  /\ is_complete (agent_group_chat (state_of r)) = true.
Proof. vm_compute. repeat split. Qed.

(** Scores that stay at 7: the debate ends after six turns, three of them
    critiques; the counter of the evaluator stands at 3 and the completion
    flag is unset; the reply is the last draft. *)
Example scenario_scores_stay_at_7 :
  let r := process_conversation (scored []) the_writer the_critic
             "alice" [] morning in
  outcome_of r = Ok tt
  /\ map content (history (agent_group_chat (state_of r)))
     = ["Draft 00"; "7"; "Draft 02"; "7"; "Draft 04"; "7"]
  /\ last_item (yields (effects_of r))
     = Ok (JsonDumps [("role", "assistant"); ("content", "Draft 04"); ("name", "Writer")])
  /\ iteration (termination_strategy (agent_group_chat (state_of r))) = 3
  /\ is_complete (agent_group_chat (state_of r)) = false.
Proof. vm_compute. repeat split. Qed.

(** An extraction that fails: the evaluation raises with the counter already
    incremented, and the call ends without a reply after the statuses
    yielded so far. *)
Example scenario_extraction_down :
  (let r := should_agent_terminate extraction_down the_critic [a_draft; a_critique]
              (create_termination_strategy [the_critic] 6) in
   outcome_of r = Raise (ServiceError "rate limit") /\ iteration (state_of r) = 1)
  /\ (let r := process_conversation extraction_down the_writer the_critic
                 "alice" [] morning in
      outcome_of r = Raise (ServiceError "rate limit")
      /\ yields (effects_of r)
         = [PlainText initial_status; PlainText "CRITIC: Reviews the draft"]).
Proof. vm_compute. repeat split. Qed.

(** A conversation to continue: system entries are left out. *)
Example load_chat_history_filters :
  load_chat_history
    [ [("role", "system"); ("content", "Be brief.")];
      [("role", "user"); ("content", "Write a haiku.")];
      [("role", "assistant"); ("name", "Writer"); ("content", "An old pond")] ]
  = Ok [ {| role := user; name := None; content := "Write a haiku." |};
         {| role := assistant; name := Some "Writer"; content := "An old pond" |} ].
Proof. reflexivity. Qed.

(** ** Programs *)

Lemma yields_app (t1 t2 : list Effect) : yields (t1 ++ t2) = yields t1 ++ yields t2.
Proof.
  induction t1 as [| e t1 IH]; simpl; [reflexivity |].
  destruct e; simpl; rewrite ?IH; reflexivity.
Qed.

Lemma last_item_app {A} (xs : list A) (x : A) : last_item (xs ++ [x]) = Ok x.
Proof.
  induction xs as [| y xs IH]; simpl; [reflexivity |].
  destruct (xs ++ [x]) eqn:E; [destruct xs; discriminate | exact IH].
Qed.

Lemma last_item_nil_inv {A} (xs : list A) e : last_item xs = Raise e -> xs = [] /\ e = IndexError.
Proof.
  induction xs as [| y xs IH]; simpl.
  - intros H. inversion H. auto.
  - destruct xs as [| z xs]; [discriminate |].
    intros H. destruct (IH H) as [? _]. discriminate.
Qed.

(** The last element splits the list. *)
Lemma last_item_ok_inv {A} (xs : list A) (x : A) :
  last_item xs = Ok x -> exists front, xs = front ++ [x].
Proof.
  induction xs as [| y xs IH]; simpl; [discriminate |].
  destruct xs as [| z xs].
  - intros H. inversion H. exists []. reflexivity.
  - intros H. destruct (IH H) as [front E]. exists (y :: front). rewrite E. reflexivity.
Qed.

(** ** The Termination Evaluator *)

(** C4: every invocation of [should_agent_terminate] leaves the iteration
    counter exactly one higher, whatever the outcome (a decision or an
    exception), and the increment comes first: the first thing the call does
    after it is to log the incremented counter, before the latest turn is
    read and before the extraction model is called. *)
Theorem should_agent_terminate_counts
    (svc : Services) (agent : Agent) (history : list ChatMessageContent)
    (self : CompletionTerminationStrategy) :
  let r := should_agent_terminate svc agent history self in
  iteration (state_of r) = iteration self + 1
  /\ agents (state_of r) = agents self
  /\ maximum_iterations (state_of r) = maximum_iterations self
  /\ exists rest,
       effects_of r = LogIteration (iteration self + 1) (maximum_iterations self) :: rest.
Proof.
  unfold should_agent_terminate, bind, get, put, emit, lift, ret; simpl.
  destruct (last_item history) as [latest |]; simpl;
    [destruct (termination_function svc (content latest)) as [res_val |]; simpl;
       [destruct (float_of_text svc (str_result res_val)); simpl |] |];
    (repeat split; eexists; reflexivity).
Qed.

(** What the call does once the extraction model has answered. *)
Lemma should_agent_terminate_answered
    (svc : Services) (agent : Agent) (history : list ChatMessageContent)
    (self : CompletionTerminationStrategy) (latest : ChatMessageContent)
    (res_val : option FunctionResult) :
  last_item history = Ok latest ->
  termination_function svc (content latest) = Ok res_val ->
  outcome_of (should_agent_terminate svc agent history self) =
    Ok match float_of_text svc (str_result res_val) with
       | Some score => float_ge score passing_score
       | None => false
       end.
Proof.
  intros Hlast Hcall.
  unfold should_agent_terminate, bind, get, put, emit, lift, ret; simpl.
  rewrite Hlast; simpl. rewrite Hcall; simpl.
  destruct (float_of_text svc (str_result res_val)); reflexivity.
Qed.

(** C2: when the extraction model answers for the latest turn and [float]
    reads its answer as [score], whatever text [float] accepts, the evaluator
    returns a decision, and the decision is to stop exactly when
    [score >= 8.0]. *)
Theorem should_agent_terminate_threshold
    (svc : Services) (agent : Agent) (history : list ChatMessageContent)
    (self : CompletionTerminationStrategy) (latest : ChatMessageContent)
    (res_val : option FunctionResult) (score : float) :
  last_item history = Ok latest ->
  termination_function svc (content latest) = Ok res_val ->
  float_of_text svc (str_result res_val) = Some score ->
  exists stop : bool,
    outcome_of (should_agent_terminate svc agent history self) = Ok stop
    /\ (stop = true <-> float_ge score passing_score = true).
Proof.
  intros Hlast Hcall Hscore.
  exists (float_ge score passing_score). split; [| tauto].
  rewrite (should_agent_terminate_answered svc agent history self Hlast Hcall).
  rewrite Hscore. reflexivity.
Qed.

Lemma should_agent_terminate_threshold_witness :
  exists stop : bool,
    outcome_of (should_agent_terminate (scripted alternate "9") the_critic
                  [a_draft; a_critique] (create_termination_strategy [the_critic] 6))
      = Ok stop
    /\ (stop = true <-> float_ge (float_of_decimal false 9 0) passing_score = true).
Proof.
  apply (@should_agent_terminate_threshold (scripted alternate "9") the_critic
           [a_draft; a_critique] (create_termination_strategy [the_critic] 6)
           a_critique (Some (answer "9")) (float_of_decimal false 9 0));
    reflexivity.
Defined.



(** The decision does not look at the counter or at [maximum_iterations]. *)
Lemma should_agent_terminate_ignores_counter
    (svc : Services) (agent : Agent) (history : list ChatMessageContent)
    (self self' : CompletionTerminationStrategy) :
  outcome_of (should_agent_terminate svc agent history self) =
  outcome_of (should_agent_terminate svc agent history self').
Proof.
  unfold should_agent_terminate, bind, get, put, emit, lift, ret; simpl.
  destruct (last_item history) as [latest |]; simpl; [| reflexivity].
  destruct (termination_function svc (content latest)) as [res_val |]; simpl;
    [| reflexivity].
  destruct (float_of_text svc (str_result res_val)); reflexivity.
Qed.

(** ** The Turn-Selector *)

(** The parser by cases on [output.value]. *)
Lemma parse_selection_output_cases {St} (default_agent : Agent)
    (output : FunctionResult) (s : St) :
  outcome_of (parse_selection_output default_agent output s) =
    match value output with
    | None => Ok (agent_name default_agent)
    | Some [] => Raise IndexError
    | Some (m :: _) => Ok (content m)
    end.
Proof.
  unfold parse_selection_output, bind, emit, lift, ret; simpl.
  destruct (value output) as [[| m rest] |]; reflexivity.
Qed.

(** With the default agent in the roster, the parser returns a roster name
    when the selection result carries no value (then the name of the default
    agent) and when the first message of the result is itself a roster name
    (then that name). *)
Theorem parse_selection_output_in_roster {St} (roster : list Agent)
    (default_agent : Agent) (output : FunctionResult) (s : St) :
  In default_agent roster ->
  (value output = None
   \/ exists m rest, value output = Some (m :: rest)
                     /\ In (content m) (map agent_name roster)) ->
  exists selected,
    outcome_of (parse_selection_output default_agent output s) = Ok selected
    /\ In selected (map agent_name roster)
    /\ (value output = None -> selected = agent_name default_agent)
    /\ (forall m rest, value output = Some (m :: rest) -> selected = content m).
Proof.
  intros Hdefault Hvalue.
  rewrite parse_selection_output_cases.
  destruct Hvalue as [Hnone | (m & rest & Hsome & Hin)].
  - rewrite Hnone. exists (agent_name default_agent).
    repeat split; [apply in_map; exact Hdefault | discriminate].
  - rewrite Hsome. exists (content m).
    repeat split; [exact Hin | discriminate |].
    intros m' rest' E. inversion E. reflexivity.
Qed.

Lemma parse_selection_output_in_roster_witness :
  exists selected,
    outcome_of (parse_selection_output the_critic {| value := None |} tt) = Ok selected
    /\ In selected (map agent_name [the_writer; the_critic])
    /\ (value {| value := None |} = None -> selected = agent_name the_critic)
    /\ (forall m rest, value {| value := None |} = Some (m :: rest) -> selected = content m).
Proof.
  apply (@parse_selection_output_in_roster unit [the_writer; the_critic] the_critic
           {| value := None |} tt).
  - simpl. right. left. reflexivity.
  - left. reflexivity.
Defined.

(** C1 fails on the code: when the selection model answers with a name that
    is not in the roster, or with the empty text, the parser returns that
    answer as it is, a name outside the roster; it does not fall back to
    [default_agent], which the docstring of [create_selection_strategy]
    calls the fallback agent to use if selection fails. *)
Lemma parse_selection_output_unknown_name :
  outcome_of (parse_selection_output the_critic (answer "Editor") tt) = Ok "Editor"
  /\ ~ In "Editor" (map agent_name [the_writer; the_critic])
  /\ outcome_of (parse_selection_output the_critic (answer "") tt) = Ok ""
  /\ ~ In "" (map agent_name [the_writer; the_critic]).
Proof.
  repeat split; try reflexivity; simpl; intros [H | [H | []]]; discriminate.
Qed.

(** ** One round of the group chat *)

(** The gate of the framework in front of the evaluator: either the agent is
    out of scope and nothing happens, or the evaluator runs. *)
Lemma should_terminate_cases (svc : Services) (agent : Agent)
    (history : list ChatMessageContent) (self : CompletionTerminationStrategy) :
  should_terminate svc agent history self =
    if negb (Nat.eqb (List.length (agents self)) 0)
       && negb (existsb (fun a => String.eqb (agent_id a) (agent_id agent)) (agents self))
    then (self, [], Ok false)
    else should_agent_terminate svc agent history self.
Proof.
  unfold should_terminate, bind, get, ret; simpl.
  destruct (negb (Nat.eqb (List.length (agents self)) 0)
            && negb (existsb (fun a => String.eqb (agent_id a) (agent_id agent))
                       (agents self))); simpl.
  - reflexivity.
  - destruct (should_agent_terminate svc agent history self) as [[s t] r].
    reflexivity.
Qed.

(** The round on a chat of the orchestrator: it yields nothing by itself,
    keeps the configuration, moves the counter by at most one and appends the
    message it returns; a round that raises may have appended a message
    already. *)
Lemma invoke_round_spec (svc : Services) (writer critic : Agent) (chat : AgentGroupChat) :
  orchestrated writer critic chat ->
  let r := invoke_round svc chat in
  orchestrated writer critic (state_of r)
  /\ yields (effects_of r) = []
  /\ match outcome_of r with
     | Ok m => history (state_of r) = history chat ++ [m]
     | Raise _ => history (state_of r) = history chat
                  \/ exists m, history (state_of r) = history chat ++ [m]
     end.
Proof.
  destruct chat as [ags sel [tags tmax tit] h done].
  unfold orchestrated; simpl. intros (-> & -> & -> & ->).
  unfold invoke_round, select_agent, invoke_agent, should_terminate,
    should_agent_terminate, create_selection_strategy, parse_selection_output.
  run.
  repeat case_step;
    (split; [repeat split | split; [reflexivity |]]);
    first [reflexivity | left; reflexivity | right; eexists; reflexivity].
Qed.

(** ** The loop *)

(** One turn of the loop, spelled out. *)
Lemma invoke_loop_S (svc : Services) (n : nat) (s : Session) :
  invoke_loop svc (S n) s =
    match invoke_round svc (agent_group_chat s) with
    | (c1, t1, Raise e) => (set_agent_group_chat c1 s, t1, Raise e)
    | (c1, t1, Ok a) =>
        let s1 := {| agent_group_chat := c1; messages := messages s ++ [to_dict a] |} in
        match describe_next_action svc (messages s ++ [to_dict a]) with
        | Raise e => (s1, t1 ++ [LogAgent (to_dict a)], Raise e)
        | Ok next_action =>
            let t := [LogAgent (to_dict a); LogNextAction next_action;
                      Yield (PlainText next_action)] in
            if is_complete c1 then (s1, t1 ++ t, Ok tt)
            else let '(s2, t2, r2) := invoke_loop svc n s1 in (s2, t1 ++ t ++ t2, r2)
        end
    end.
Proof.
  simpl. unfold on_message. run.
  destruct (invoke_round svc (agent_group_chat s)) as [[c1 t1] [a | e]]; simpl;
    [| reflexivity].
  destruct (describe_next_action svc (messages s ++ [to_dict a])) as [next | e];
    simpl; [| reflexivity].
  destruct (is_complete c1); simpl; [reflexivity |].
  destruct (invoke_loop svc n _) as [[s2 t2] r2]. reflexivity.
Qed.

(** What the loop leaves behind: the turns it appended to the history, at
    most one per round, and one status per turn that reached the caller. *)
Lemma invoke_loop_spec (svc : Services) (writer critic : Agent) (n : nat) :
  forall s : Session,
    orchestrated writer critic (agent_group_chat s) ->
    let r := invoke_loop svc n s in
    orchestrated writer critic (agent_group_chat (state_of r))
    /\ exists turns statuses,
         history (agent_group_chat (state_of r)) = history (agent_group_chat s) ++ turns
         /\ yields (effects_of r) = map PlainText statuses
         /\ (List.length turns <= n)%nat
         /\ (List.length statuses <= List.length turns)%nat
         /\ (outcome_of r = Ok tt ->
             List.length statuses = List.length turns
             /\ messages (state_of r) = messages s ++ map to_dict turns).
Proof.
  induction n as [| n IH]; intros s Hs.
  - simpl. split; [exact Hs |]. exists [], []. simpl.
    rewrite !app_nil_r. repeat split; auto.
  - cbv zeta. rewrite invoke_loop_S.
    pose proof (invoke_round_spec svc Hs) as Hround. cbv zeta in Hround.
    destruct (invoke_round svc (agent_group_chat s)) as [[c1 t1] [a | e]];
      unfold state_of, effects_of, outcome_of in Hround; simpl in Hround;
      destruct Hround as (Hc1 & Ht1 & Hh).
    + cbv zeta.
      destruct (describe_next_action svc (messages s ++ [to_dict a])) as [next | e].
      * destruct (is_complete c1) eqn:Hdone.
        -- unfold state_of, effects_of, outcome_of; simpl.
           split; [exact Hc1 |]. exists [a], [next].
           rewrite yields_app, Ht1. simpl. repeat split; auto; lia.
        -- specialize (IH {| agent_group_chat := c1;
                             messages := messages s ++ [to_dict a] |} Hc1).
           cbv zeta in IH.
           destruct (invoke_loop svc n _) as [[s2 t2] r2].
           unfold state_of, effects_of, outcome_of in *; simpl in *.
           destruct IH as (Hc2 & turns & statuses & Hh2 & Hy2 & Hn & Hle & Hok).
           split; [exact Hc2 |]. exists (a :: turns), (next :: statuses).
           rewrite yields_app, Ht1, Hh2, Hh. simpl. rewrite Hy2, <- app_assoc.
           repeat split; auto; try lia.
           ++ destruct (Hok H) as [E _]. lia.
           ++ destruct (Hok H) as [_ E]. rewrite E, <- app_assoc. reflexivity.
      * unfold state_of, effects_of, outcome_of; simpl.
        split; [exact Hc1 |]. exists [a], [].
        rewrite yields_app, Ht1. simpl. repeat split; auto; try lia; discriminate.
    + unfold state_of, effects_of, outcome_of; simpl.
      split; [exact Hc1 |].
      destruct Hh as [Hh | [m Hh]].
      * exists [], []. rewrite Hh, app_nil_r, Ht1. simpl.
        repeat split; auto; try lia; discriminate.
      * exists [m], []. rewrite Hh, Ht1. simpl.
        repeat split; auto; try lia; discriminate.
Qed.

Arguments invoke_loop : simpl never.

(** The debate of a fresh session: nothing happens when the conversation
    cannot be loaded; otherwise the history is the loaded one followed by the
    turns of at most six rounds, and the stream is the initial status
    followed by one status per turn that reached the caller. *)
Lemma run_debate_spec (svc : Services) (writer critic : Agent) (user_id : string)
    (conversation_messages : list dict) (now : datetime) :
  let r := run_debate svc user_id conversation_messages now (new_session writer critic) in
  match load_chat_history conversation_messages with
  | Raise e =>
      outcome_of r = Raise e /\ yields (effects_of r) = []
      /\ state_of r = new_session writer critic
  | Ok seeded =>
      exists turns statuses,
        history (agent_group_chat (state_of r)) = seeded ++ turns
        /\ yields (effects_of r) = PlainText initial_status :: map PlainText statuses
        /\ (List.length turns <= 6)%nat
        /\ (List.length statuses <= List.length turns)%nat
        /\ (outcome_of r = Ok tt ->
            List.length statuses = List.length turns
            /\ messages (state_of r) = map to_dict turns)
  end.
Proof.
  cbv zeta. unfold run_debate, add_chat_messages, new_session. run.
  destruct (load_chat_history conversation_messages) as [seeded | e]; simpl;
    [| repeat split].
  change (Pos.to_nat 6) with 6%nat.
  match goal with
  | |- context [invoke_loop svc 6 ?s0] =>
      assert (H0 : orchestrated writer critic (agent_group_chat s0))
        by (repeat split);
      pose proof (invoke_loop_spec svc 6 s0 H0) as Hloop; cbv zeta in Hloop;
      destruct (invoke_loop svc 6 s0) as [[s2 t2] r2]
  end.
  unfold state_of, effects_of, outcome_of in Hloop; simpl in Hloop.
  destruct Hloop as (_ & turns & statuses & Hh & Hy & Hn & Hle & Hok).
  exists turns, statuses. simpl. rewrite Hh, Hy. repeat split; auto.
  - apply Hok. assumption.
  - apply Hok. assumption.
Qed.

(** The whole call: the debate, then the reply of the Writer. *)
Lemma process_conversation_cases (svc : Services) (writer critic : Agent)
    (user_id : string) (conversation_messages : list dict) (now : datetime) :
  process_conversation svc writer critic user_id conversation_messages now =
    match run_debate svc user_id conversation_messages now (new_session writer critic) with
    | (s1, t1, Raise e) => (s1, t1, Raise e)
    | (s1, t1, Ok _) =>
        match last_item (filter (name_is "Writer") (history (agent_group_chat s1))) with
        | Ok w => (s1, t1 ++ [Yield (JsonDumps (to_dict w))], Ok tt)
        | Raise e => (s1, t1 ++ [], Raise e)
        end
    end.
Proof.
  unfold process_conversation, yield_reply, get_chat_messages.
  unfold bind at 1.
  destruct (run_debate svc user_id conversation_messages now _) as [[s1 t1] [u | e]];
    [| reflexivity].
  run. rewrite rev_involutive.
  destruct (last_item _) as [w | e]; reflexivity.
Qed.

(** The last element of a filtered list is the last element of the list that
    passes the filter. *)
Lemma last_item_filter {A} (f : A -> bool) (xs : list A) (w : A) :
  last_item (filter f xs) = Ok w ->
  exists before after,
    xs = before ++ w :: after /\ f w = true /\ Forall (fun x => f x = false) after.
Proof.
  intros H. apply last_item_ok_inv in H. destruct H as [front E].
  revert front w E. induction xs as [| x xs IH] using rev_ind; intros front w E.
  - destruct front; discriminate.
  - rewrite filter_app in E. simpl in E. destruct (f x) eqn:Hfx.
    + apply app_inj_tail in E. destruct E as [_ ->].
      exists xs, []. repeat split; auto.
    + rewrite app_nil_r in E. destruct (IH front w E) as (before & after & -> & Hw & Hafter).
      exists before, (after ++ [x]). rewrite <- app_assoc. repeat split; auto.
      apply Forall_app. split; [exact Hafter | constructor; auto].
Qed.

Lemma all_status_map (statuses : list string) :
  Forall (fun y => is_status y = true) (map PlainText statuses).
Proof. induction statuses; simpl; constructor; auto. Qed.

(** ** The iteration cap *)

(** C5 fails as stated: six evaluations in a row on a score of 7 all decide
    not to stop, the sixth included, although the counter has then reached
    [maximum_iterations]; and a debate of six Critic turns ends with the
    completion flag still unset. *)
Lemma sixth_evaluation_does_not_stop :
  (let r := repeat_prog 6
              (should_agent_terminate (scripted alternate "7") the_critic
                 [a_draft; a_critique])
              (create_termination_strategy [the_critic] 6) in
   outcome_of r = Ok [false; false; false; false; false; false]
   /\ iteration (state_of r) = 6
   /\ maximum_iterations (state_of r) = 6)
  /\ (let d := run_debate (scripted (fun _ => "Critic") "7") "alice" [] morning
                 (new_session the_writer the_critic) in
      outcome_of d = Ok tt
      /\ iteration (termination_strategy (agent_group_chat (state_of d))) = 6
      /\ is_complete (agent_group_chat (state_of d)) = false).
Proof. vm_compute. repeat split. Qed.

(** C5, as the code has it: a call of [process_conversation] appends at most
    [maximum_iterations] = 6 turns to the history it loaded, because the group
    chat runs at most that many rounds; the evaluator itself never stops a
    debate on account of its counter, since its decision is the same whatever
    the counter and the cap are. *)
Theorem debate_runs_at_most_six_rounds (svc : Services) (writer critic : Agent)
    (user_id : string) (conversation_messages : list dict) (now : datetime) :
  let r := process_conversation svc writer critic user_id conversation_messages now in
  (exists turns,
     history (agent_group_chat (state_of r)) =
       match load_chat_history conversation_messages with
       | Ok seeded => seeded
       | Raise _ => []
       end ++ turns
     /\ (List.length turns <= 6)%nat)
  /\ (forall agent history self self',
        outcome_of (should_agent_terminate svc agent history self) =
        outcome_of (should_agent_terminate svc agent history self')).
Proof.
  cbv zeta. split; [| apply should_agent_terminate_ignores_counter].
  rewrite process_conversation_cases.
  pose proof (run_debate_spec svc writer critic user_id conversation_messages now) as H.
  cbv zeta in H.
  destruct (run_debate svc user_id conversation_messages now _) as [[s1 t1] r1].
  unfold state_of, effects_of, outcome_of in *; simpl in H.
  assert (E : history (agent_group_chat
                (fst (fst
                   match r1 with
                   | Ok _ =>
                       match last_item (filter (name_is "Writer")
                                          (history (agent_group_chat s1))) with
                       | Ok w => (s1, t1 ++ [Yield (JsonDumps (to_dict w))], Ok tt)
                       | Raise e => (s1, t1 ++ [], Raise e)
                       end
                   | Raise e => (s1, t1, Raise e)
                   end))) = history (agent_group_chat s1)).
  { destruct r1; [destruct (last_item _) |]; reflexivity. }
  rewrite E. clear E.
  destruct (load_chat_history conversation_messages) as [seeded | e].
  - destruct H as (turns & statuses & Hh & _ & Hn & _). exists turns. auto.
  - destruct H as (_ & _ & ->). exists []. simpl. split; [reflexivity | lia].
Qed.

(** ** The reply *)

(** C6: a call that succeeds yields, as its last value, the most recent turn
    of the history whose name is ["Writer"]: every turn after it in the
    history has another name. *)
Theorem process_conversation_replies_last_writer (svc : Services)
    (writer critic : Agent) (user_id : string) (conversation_messages : list dict)
    (now : datetime) :
  let r := process_conversation svc writer critic user_id conversation_messages now in
  outcome_of r = Ok tt ->
  exists before w after earlier,
    history (agent_group_chat (state_of r)) = before ++ w :: after
    /\ name_is "Writer" w = true
    /\ Forall (fun m => name_is "Writer" m = false) after
    /\ yields (effects_of r) = earlier ++ [JsonDumps (to_dict w)].
Proof.
  cbv zeta. rewrite process_conversation_cases.
  destruct (run_debate svc user_id conversation_messages now _) as [[s1 t1] [u | e]];
    [| discriminate].
  destruct (last_item _) as [w | e] eqn:Hlast; [| discriminate].
  intros _. unfold state_of, effects_of; simpl.
  destruct (last_item_filter _ _ Hlast) as (before & after & Hh & Hw & Hafter).
  exists before, w, after, (yields t1). rewrite yields_app. auto.
Qed.

Lemma process_conversation_replies_last_writer_witness :
  let r := process_conversation (scripted alternate "9") the_writer the_critic
             "alice" [] morning in
  exists before w after earlier,
    history (agent_group_chat (state_of r)) = before ++ w :: after
    /\ name_is "Writer" w = true
    /\ Forall (fun m => name_is "Writer" m = false) after
    /\ yields (effects_of r) = earlier ++ [JsonDumps (to_dict w)].
Proof.
  apply (@process_conversation_replies_last_writer (scripted alternate "9")
           the_writer the_critic "alice" [] morning).
  reflexivity.
Defined.

(** C7: when the history at the end of a call holds no turn named
    ["Writer"], the call raises, and everything it has yielded is a status:
    no reply is yielded.  When the debate itself ended normally, the
    exception is the [IndexError] of the empty selection. *)
Theorem process_conversation_without_writer (svc : Services)
    (writer critic : Agent) (user_id : string) (conversation_messages : list dict)
    (now : datetime) :
  let r := process_conversation svc writer critic user_id conversation_messages now in
  filter (name_is "Writer") (history (agent_group_chat (state_of r))) = [] ->
  (exists e, outcome_of r = Raise e)
  /\ Forall (fun y => is_status y = true) (yields (effects_of r))
  /\ (outcome_of (run_debate svc user_id conversation_messages now
                    (new_session writer critic)) = Ok tt ->
      outcome_of r = Raise IndexError).
Proof.
  cbv zeta. rewrite process_conversation_cases.
  pose proof (run_debate_spec svc writer critic user_id conversation_messages now) as H.
  cbv zeta in H.
  destruct (run_debate svc user_id conversation_messages now _) as [[s1 t1] r1].
  unfold state_of, effects_of, outcome_of in *; simpl in H.
  assert (Hy : Forall (fun y => is_status y = true) (yields t1)).
  { destruct (load_chat_history conversation_messages).
    - destruct H as (turns & statuses & _ & -> & _).
      constructor; [reflexivity | apply all_status_map].
    - destruct H as (_ & -> & _). constructor. }
  destruct r1 as [u | e]; simpl.
  - destruct (last_item _) as [w | e] eqn:Hlast; simpl.
    + intros Hnone. rewrite Hnone in Hlast. discriminate.
    + intros _. rewrite app_nil_r.
      apply last_item_nil_inv in Hlast. destruct Hlast as [_ ->].
      repeat split; eauto.
  - intros _. repeat split; eauto. discriminate.
Qed.

Lemma process_conversation_without_writer_witness :
  let r := process_conversation (scripted (fun _ => "Critic") "7") the_writer the_critic
             "alice" [] morning in
  (exists e, outcome_of r = Raise e)
  /\ Forall (fun y => is_status y = true) (yields (effects_of r))
  /\ (outcome_of (run_debate (scripted (fun _ => "Critic") "7") "alice" [] morning
                    (new_session the_writer the_critic)) = Ok tt ->
      outcome_of r = Raise IndexError).
Proof.
  apply (@process_conversation_without_writer (scripted (fun _ => "Critic") "7")
           the_writer the_critic "alice" [] morning).
  reflexivity.
Defined.

(** ** The output stream *)

(** C8 fails as stated: the debate below completes two turns and its
    stream counts three statuses before the reply, because the stream opens
    with a status that belongs to no turn. *)
Lemma three_statuses_for_two_turns :
  let r := process_conversation (scripted alternate "9") the_writer the_critic
             "alice" [] morning in
  outcome_of r = Ok tt
  /\ history (agent_group_chat (state_of r))
     = [a_draft;
        {| role := assistant; name := Some "Critic"; content := "Reply of Critic" |}]
  /\ yields (effects_of r)
     = [PlainText "WRITER: Prepares the initial draft";
        PlainText "CRITIC: Reviews the draft";
        PlainText "CRITIC: Reviews the draft";
        JsonDumps (to_dict a_draft)]
  /\ List.length (filter is_status (yields (effects_of r)))
     <> List.length (history (agent_group_chat (state_of r))).
Proof. vm_compute. repeat split. discriminate. Qed.

(** C8, as the code has it: the stream of a call that succeeds is the
    initial status, then one status per turn that the debate appended to the
    loaded history, then the reply, which is the last turn named ["Writer"]
    of the history; the reply is the last value and the only one that is not
    a status. *)
Theorem process_conversation_stream (svc : Services) (writer critic : Agent)
    (user_id : string) (conversation_messages : list dict) (now : datetime) :
  let r := process_conversation svc writer critic user_id conversation_messages now in
  outcome_of r = Ok tt ->
  exists seeded turns statuses w,
    load_chat_history conversation_messages = Ok seeded
    /\ history (agent_group_chat (state_of r)) = seeded ++ turns
    /\ List.length statuses = List.length turns
    /\ last_item (filter (name_is "Writer") (seeded ++ turns)) = Ok w
    /\ yields (effects_of r)
       = PlainText initial_status :: map PlainText statuses ++ [JsonDumps (to_dict w)].
Proof.
  cbv zeta. rewrite process_conversation_cases.
  pose proof (run_debate_spec svc writer critic user_id conversation_messages now) as H.
  cbv zeta in H.
  destruct (run_debate svc user_id conversation_messages now _) as [[s1 t1] [u | e]];
    [| discriminate].
  destruct (last_item _) as [w | e] eqn:Hlast; [| discriminate].
  intros _. unfold state_of, effects_of, outcome_of in *; simpl in *.
  destruct (load_chat_history conversation_messages) as [seeded | e].
  - destruct H as (turns & statuses & Hh & Hy & _ & _ & Hok).
    destruct u. destruct (Hok eq_refl) as [Hlen _].
    exists seeded, turns, statuses, w.
    rewrite yields_app, Hy, <- Hh. simpl. auto.
  - destruct H as (H & _). discriminate.
Qed.

Lemma process_conversation_stream_witness :
  let r := process_conversation (scripted alternate "9") the_writer the_critic
             "alice" [] morning in
  exists seeded turns statuses w,
    load_chat_history [] = Ok seeded
    /\ history (agent_group_chat (state_of r)) = seeded ++ turns
    /\ List.length statuses = List.length turns
    /\ last_item (filter (name_is "Writer") (seeded ++ turns)) = Ok w
    /\ yields (effects_of r)
       = PlainText initial_status :: map PlainText statuses ++ [JsonDumps (to_dict w)].
Proof.
  apply (@process_conversation_stream (scripted alternate "9") the_writer the_critic
           "alice" [] morning).
  reflexivity.
Defined.

(** ** The session identifier *)

(** C9 fails on the code: two calls of the same user within one second get
    the same session identifier, since the time is written to the second. *)
Theorem session_id_same_second :
  session_id "alice" morning = "alice-2024-01-05_07:03:09"
  /\ session_id "alice" same_second = "alice-2024-01-05_07:03:09"
  /\ morning <> same_second.
Proof. repeat split. discriminate. Qed.

(** ** Who is evaluated *)

(** With the critic alone in [agents], an agent with another identifier is
    out of scope: no evaluation, no increment, the answer is not to stop. *)
Lemma should_terminate_out_of_scope (svc : Services) (agent critic : Agent)
    (history : list ChatMessageContent) (self : CompletionTerminationStrategy) :
  agents self = [critic] ->
  agent_id agent <> agent_id critic ->
  should_terminate svc agent history self = (self, [], Ok false).
Proof.
  intros Hagents Hid. rewrite should_terminate_cases, Hagents. simpl.
  destruct (String.eqb_spec (agent_id critic) (agent_id agent)) as [E | _];
    [congruence | reflexivity].
Qed.

(** A round that returns a message, by the agent that was selected: the
    agent is the first of the roster with the name that the parser returned,
    the message carries its name, and what happens to the termination
    strategy and to the completion flag is what [should_terminate] does for
    that agent on the history with the message appended. *)
Lemma invoke_round_selected (svc : Services) (writer critic : Agent)
    (chat : AgentGroupChat) (m : ChatMessageContent) :
  orchestrated writer critic chat ->
  outcome_of (invoke_round svc chat) = Ok m ->
  exists selected output evaluation,
    find (fun a => String.eqb (agent_name a) (agent_name selected)) [writer; critic]
      = Some selected
    /\ name m = Some (agent_name selected)
    /\ should_terminate svc selected (history chat ++ [m]) (termination_strategy chat)
       = (termination_strategy (state_of (invoke_round svc chat)), evaluation,
          Ok (is_complete (state_of (invoke_round svc chat))))
    /\ effects_of (invoke_round svc chat)
       = [KernelInvoke "SpeakerSelector" ""; LogSpeakerSelected output;
          AgentInvoke (agent_name selected)] ++ evaluation.
Proof.
  destruct chat as [ags sel ts h done].
  unfold orchestrated; simpl. intros (-> & -> & _ & _).
  unfold invoke_round, select_agent, invoke_agent,
    create_selection_strategy, parse_selection_output.
  run.
  destruct (selection_function svc [writer; critic] h) as [output | e]; simpl;
    [| discriminate].
  destruct (value output) as [[| m0 rest] |]; simpl; try discriminate;
    match goal with
    | |- context [String.eqb ?sel ""] =>
        destruct (String.eqb sel ""); simpl; try discriminate;
        destruct (String.eqb (agent_name writer) sel) eqn:Ew; simpl;
        [| destruct (String.eqb (agent_name critic) sel) eqn:Ec; simpl;
           try discriminate ]
    end;
    match goal with
    | |- context [agent_reply svc ?a h] =>
        destruct (agent_reply svc a h) as [text | e]; simpl; try discriminate;
        destruct (should_terminate svc a _ ts) as [[sub t] [stop | e]] eqn:Hts;
        simpl; try discriminate;
        intros Hm; inversion Hm; subst m; simpl;
        exists a, output, t
    end;
    rewrite ?String.eqb_refl;
    repeat split; try exact Hts;
    rewrite ?app_nil_r; try reflexivity;
    first [ rewrite Ew; reflexivity
          | apply String.eqb_eq in Ec; rewrite <- Ec in Ew; rewrite Ew; reflexivity ].
Qed.

(** C10: in a round of the debate whose turn is the Writer's, the
    termination strategy is left as it was (the counter is not incremented),
    no extraction is requested and nothing of an evaluation is logged, and
    the completion flag is not set; the identifiers of the two agents are
    taken to differ. *)
Theorem writer_round_is_not_evaluated (svc : Services) (writer critic : Agent)
    (chat : AgentGroupChat) (m : ChatMessageContent) :
  orchestrated writer critic chat ->
  agent_id writer <> agent_id critic ->
  outcome_of (invoke_round svc chat) = Ok m ->
  name m = Some (agent_name writer) ->
  termination_strategy (state_of (invoke_round svc chat)) = termination_strategy chat
  /\ is_complete (state_of (invoke_round svc chat)) = false
  /\ Forall (fun e => is_evaluation e = false) (effects_of (invoke_round svc chat)).
Proof.
  intros Hchat Hid Hm Hname.
  destruct (invoke_round_selected svc Hchat Hm)
    as (selected & output & evaluation & Hfind & Hsel & Hts & Heff).
  assert (selected = writer) as ->.
  { rewrite Hsel in Hname. inversion Hname as [E]. simpl in Hfind.
    rewrite E, String.eqb_refl in Hfind. congruence. }
  destruct Hchat as (_ & _ & Hagents & _).
  rewrite (@should_terminate_out_of_scope svc writer critic _ _ Hagents Hid) in Hts.
  inversion Hts as [[E1 E2 E3]].
  rewrite Heff, <- E2. repeat split. repeat constructor.
Qed.

Lemma writer_round_is_not_evaluated_witness :
  let chat := create_agent_group_chat the_writer the_critic in
  termination_strategy (state_of (invoke_round (scripted alternate "9") chat))
    = termination_strategy chat
  /\ is_complete (state_of (invoke_round (scripted alternate "9") chat)) = false
  /\ Forall (fun e => is_evaluation e = false)
       (effects_of (invoke_round (scripted alternate "9") chat)).
Proof.
  apply (@writer_round_is_not_evaluated (scripted alternate "9") the_writer the_critic
           (create_agent_group_chat the_writer the_critic) a_draft).
  - repeat split.
  - simpl. discriminate.
  - reflexivity.
  - reflexivity.
Defined.

(** ** The counter over a debate *)

Lemma should_agent_terminate_state (svc : Services) (agent : Agent)
    (history : list ChatMessageContent) (self : CompletionTerminationStrategy) :
  state_of (should_agent_terminate svc agent history self)
  = set_iteration (iteration self + 1) self.
Proof.
  unfold should_agent_terminate. run.
  destruct (last_item history) as [latest |]; simpl; [| reflexivity].
  destruct (termination_function svc (content latest)) as [res_val |]; simpl;
    [| reflexivity].
  destruct (float_of_text svc (str_result res_val)); reflexivity.
Qed.

(** A round that returns a message moves the counter by one when the message
    is the Critic's and leaves it when it is the Writer's. *)
Lemma invoke_round_counter (svc : Services) (writer critic : Agent)
    (chat : AgentGroupChat) (m : ChatMessageContent) :
  orchestrated writer critic chat ->
  agent_id writer <> agent_id critic ->
  agent_name writer <> agent_name critic ->
  outcome_of (invoke_round svc chat) = Ok m ->
  iteration (termination_strategy (state_of (invoke_round svc chat)))
  = iteration (termination_strategy chat)
    + (if name_is (agent_name critic) m then 1 else 0).
Proof.
  intros Hchat Hid Hname Hm.
  destruct (invoke_round_selected svc Hchat Hm)
    as (selected & output & evaluation & Hfind & Hsel & Hts & _).
  destruct Hchat as (_ & _ & Hagents & _).
  unfold name_is. rewrite Hsel.
  simpl in Hfind.
  destruct (String.eqb_spec (agent_name writer) (agent_name selected)) as [E | E].
  - inversion Hfind; subst selected.
    rewrite (@should_terminate_out_of_scope svc writer critic _ _ Hagents Hid) in Hts.
    inversion Hts as [[E1 E2 E3]].
    destruct (String.eqb_spec (agent_name writer) (agent_name critic)); [congruence | lia].
  - destruct (String.eqb_spec (agent_name critic) (agent_name selected)) as [E' | E'];
      [| discriminate].
    inversion Hfind; subst selected.
    rewrite String.eqb_refl.
    rewrite should_terminate_cases, Hagents in Hts. simpl in Hts.
    rewrite String.eqb_refl in Hts. simpl in Hts.
    pose proof (should_agent_terminate_state svc critic (history chat ++ [m])
                  (termination_strategy chat)) as Hst.
    rewrite Hts in Hst. unfold state_of in *. simpl in Hst.
    rewrite Hst. reflexivity.
Qed.

(** Over a debate that ends normally the counter grows by the number of
    Critic turns appended. *)
Lemma invoke_loop_counter (svc : Services) (writer critic : Agent) (n : nat) :
  agent_id writer <> agent_id critic ->
  agent_name writer <> agent_name critic ->
  forall s : Session,
    orchestrated writer critic (agent_group_chat s) ->
    let r := invoke_loop svc n s in
    outcome_of r = Ok tt ->
    exists turns,
      history (agent_group_chat (state_of r)) = history (agent_group_chat s) ++ turns
      /\ iteration (termination_strategy (agent_group_chat (state_of r)))
         = iteration (termination_strategy (agent_group_chat s))
           + Z.of_nat (List.length (filter (name_is (agent_name critic)) turns)).
Proof.
  intros Hid Hname. induction n as [| n IH]; intros s Hs.
  - unfold invoke_loop, ret, state_of, outcome_of. simpl.
    intros _. exists []. simpl. rewrite app_nil_r. split; [reflexivity | lia].
  - cbv zeta. rewrite invoke_loop_S.
    pose proof (invoke_round_spec svc Hs) as Hround. cbv zeta in Hround.
    pose proof (@invoke_round_counter svc writer critic (agent_group_chat s)) as Hcount.
    destruct (invoke_round svc (agent_group_chat s)) as [[c1 t1] [a | e]];
      unfold state_of, effects_of, outcome_of in Hround, Hcount; simpl in Hround, Hcount;
      [| discriminate].
    destruct Hround as (Hc1 & _ & Hh).
    specialize (Hcount a Hs Hid Hname eq_refl).
    cbv zeta.
    destruct (describe_next_action svc (messages s ++ [to_dict a])) as [next | e];
      [| discriminate].
    destruct (is_complete c1).
    + unfold state_of, outcome_of; simpl. intros _. exists [a].
      rewrite Hh, Hcount. simpl.
      destruct (name_is (agent_name critic) a); split; reflexivity.
    + specialize (IH {| agent_group_chat := c1;
                        messages := messages s ++ [to_dict a] |} Hc1).
      cbv zeta in IH.
      destruct (invoke_loop svc n _) as [[s2 t2] r2].
      unfold state_of, outcome_of in *; simpl in *.
      intros Hok. destruct (IH Hok) as (turns & Hh2 & Hit).
      exists (a :: turns). rewrite Hh2, Hh, Hit, Hcount, <- app_assoc. simpl.
      split; [reflexivity |].
      destruct (name_is (agent_name critic) a); simpl; lia.
Qed.

(** X20: after a call that succeeds, the counter of the evaluator is the
    number of Critic turns that the debate appended: Writer turns do not
    count, and neither do the turns of the loaded conversation.  The two
    agents are taken to differ in identifier and in name. *)
Lemma process_conversation_counter (svc : Services) (writer critic : Agent)
    (user_id : string) (conversation_messages : list dict) (now : datetime) :
  agent_id writer <> agent_id critic ->
  agent_name writer <> agent_name critic ->
  let r := process_conversation svc writer critic user_id conversation_messages now in
  outcome_of r = Ok tt ->
  exists seeded turns,
    load_chat_history conversation_messages = Ok seeded
    /\ history (agent_group_chat (state_of r)) = seeded ++ turns
    /\ iteration (termination_strategy (agent_group_chat (state_of r)))
       = Z.of_nat (List.length (filter (name_is (agent_name critic)) turns)).
Proof.
  intros Hid Hname. cbv zeta. rewrite process_conversation_cases.
  unfold run_debate, add_chat_messages, new_session. run.
  destruct (load_chat_history conversation_messages) as [seeded | e]; simpl;
    [| discriminate].
  change (Pos.to_nat 6) with 6%nat.
  match goal with
  | |- context [invoke_loop svc 6 ?s0] =>
      assert (H0 : orchestrated writer critic (agent_group_chat s0))
        by (repeat split);
      pose proof (@invoke_loop_counter svc writer critic 6 Hid Hname s0 H0) as Hloop;
      cbv zeta in Hloop;
      destruct (invoke_loop svc 6 s0) as [[s2 t2] [u | e]]
  end; simpl; [| discriminate].
  destruct (last_item _) as [w | e]; simpl; [| discriminate].
  intros _. destruct u.
  unfold state_of, outcome_of in Hloop; simpl in Hloop.
  destruct (Hloop eq_refl) as (turns & Hh & Hit).
  exists seeded, turns. auto.
Qed.

(* ===================================================================== *)
(** * Further properties of the orchestrator *)
(* ===================================================================== *)

(** ** Loading the conversation *)

(** The comprehension at once: a [KeyError] when an entry has no ["role"]
    key, the messages of the kept entries otherwise. *)
Lemma load_chat_history_cases (conversation_messages : list dict) :
  load_chat_history conversation_messages =
    if forallb (fun d => match dict_get d "role" with Some _ => true | None => false end)
         conversation_messages
    then Ok (map entry_message (filter entry_kept conversation_messages))
    else Raise KeyError.
Proof.
  induction conversation_messages as [| d rest IH]; [reflexivity |].
  cbn [load_chat_history forallb filter]. unfold dict_item, entry_kept.
  destruct (dict_get d "role") as [r |] eqn:Hrole; cbn [andb]; [| reflexivity].
  rewrite IH.
  destruct (String.eqb_spec r "assistant") as [-> | Ha]; cbn [orb].
  - destruct (forallb _ rest); cbn [map AuthorRole_of]; [| reflexivity].
    unfold entry_message. rewrite Hrole. reflexivity.
  - destruct (String.eqb_spec r "user") as [-> | Hu].
    + destruct (forallb _ rest); cbn [map]; [| reflexivity].
      unfold entry_message. rewrite Hrole. reflexivity.
    + reflexivity.
Qed.

Lemma load_chat_history_length (conversation_messages : list dict)
    (chat_history : list ChatMessageContent) :
  load_chat_history conversation_messages = Ok chat_history ->
  (List.length chat_history <= List.length conversation_messages)%nat.
Proof.
  rewrite load_chat_history_cases.
  destruct (forallb _ conversation_messages); [| discriminate].
  intros H. inversion H. rewrite length_map. apply filter_length_le.
Qed.

(** X1: an entry without a ["role"] key makes the loading of the
    conversation raise [KeyError], wherever the entry stands and whatever the
    other entries are, also when its role would have been filtered out. *)
Theorem load_chat_history_missing_role (conversation_messages : list dict) :
  (exists d, In d conversation_messages /\ dict_get d "role" = None) ->
  load_chat_history conversation_messages = Raise KeyError.
Proof.
  intros (d & Hin & Hrole). rewrite load_chat_history_cases.
  destruct (forallb _ conversation_messages) eqn:Hall; [| reflexivity].
  rewrite forallb_forall in Hall. specialize (Hall d Hin).
  rewrite Hrole in Hall. discriminate.
Qed.

Lemma load_chat_history_missing_role_witness :
  load_chat_history
    [ [("role", "user"); ("content", "Write a haiku.")]; [("content", "No role")] ]
  = Raise KeyError.
Proof.
  apply (@load_chat_history_missing_role
           [ [("role", "user"); ("content", "Write a haiku.")]; [("content", "No role")] ]).
  exists [("content", "No role")]. split; [simpl; auto | reflexivity].
Defined.

(** X9: when every entry has a ["role"] key, the conversation loads, and the
    history is made of the entries whose role is ["assistant"] or ["user"],
    in their order, each with its name (none when the entry has no name or
    an empty one) and its content (the empty string if none). *)
Theorem load_chat_history_keeps_order (conversation_messages : list dict) :
  (forall d, In d conversation_messages -> dict_get d "role" <> None) ->
  load_chat_history conversation_messages
  = Ok (map entry_message (filter entry_kept conversation_messages)).
Proof.
  intros Hall. rewrite load_chat_history_cases.
  destruct (forallb _ conversation_messages) eqn:E; [reflexivity |].
  assert (T : forallb (fun d => match dict_get d "role" with
                                | Some _ => true
                                | None => false
                                end) conversation_messages = true).
  { apply forallb_forall. intros d Hd. specialize (Hall d Hd).
    destruct (dict_get d "role"); [reflexivity | congruence]. }
  rewrite T in E. discriminate.
Qed.

Lemma load_chat_history_keeps_order_witness :
  load_chat_history
    [ [("role", "system"); ("content", "Be brief.")];
      [("role", "assistant"); ("name", "Writer")] ]
  = Ok (map entry_message
          (filter entry_kept
             [ [("role", "system"); ("content", "Be brief.")];
               [("role", "assistant"); ("name", "Writer")] ])).
Proof.
  apply (@load_chat_history_keeps_order
           [ [("role", "system"); ("content", "Be brief.")];
             [("role", "assistant"); ("name", "Writer")] ]).
  intros d [<- | [<- | []]]; discriminate.
Defined.

(** X2: a conversation that loads gives only user and assistant messages,
    no more of them than there are entries: system, tool and other entries
    never reach the history. *)
Theorem load_chat_history_roles (conversation_messages : list dict)
    (chat_history : list ChatMessageContent) :
  load_chat_history conversation_messages = Ok chat_history ->
  Forall (fun m => role m = user \/ role m = assistant) chat_history
  /\ (List.length chat_history <= List.length conversation_messages)%nat.
Proof.
  rewrite load_chat_history_cases.
  destruct (forallb _ conversation_messages); [| discriminate].
  intros H. inversion H; subst chat_history. clear H. split.
  - apply Forall_forall. intros m Hm. apply in_map_iff in Hm.
    destruct Hm as (d & <- & _). unfold entry_message; simpl.
    destruct (dict_get d "role") as [r |]; [destruct (String.eqb r "user") |]; auto.
  - rewrite length_map. apply filter_length_le.
Qed.

Lemma load_chat_history_roles_witness :
  Forall (fun m => role m = user \/ role m = assistant)
    [ {| role := user; name := None; content := "Write a haiku." |} ]
  /\ (List.length [ {| role := user; name := None; content := "Write a haiku." |} ]
      <= List.length [ [("role", "system"); ("content", "Be brief.")];
                       [("role", "user"); ("content", "Write a haiku.")] ])%nat.
Proof.
  apply (@load_chat_history_roles
           [ [("role", "system"); ("content", "Be brief.")];
             [("role", "user"); ("content", "Write a haiku.")] ]).
  reflexivity.
Defined.

(** What [to_dict] writes can be read back. *)
Lemma to_dict_read_back (m : ChatMessageContent) :
  dict_get (to_dict m) "role" = Some (AuthorRole_value (role m))
  /\ dict_get (to_dict m) "content" = Some (content m)
  /\ dict_get (to_dict m) "name"
     = match name m with
       | Some n => if String.eqb n "" then None else Some n
       | None => None
       end.
Proof.
  unfold to_dict. simpl.
  destruct (name m) as [n |]; [destruct (String.eqb n "") |]; simpl;
    repeat split; rewrite ?String.eqb_refl; reflexivity.
Qed.

(** X3: user and assistant messages written by [to_dict] load back as they
    were, provided none has the empty string for a name (a name that
    [to_dict] leaves out); this is how the turns of one call come back as the
    conversation of the next. *)
Theorem load_chat_history_to_dict (ms : list ChatMessageContent) :
  Forall (fun m => (role m = user \/ role m = assistant) /\ name m <> Some "") ms ->
  load_chat_history (map to_dict ms) = Ok ms.
Proof.
  induction 1 as [| m ms [Hrole Hname] _ IH]; [reflexivity |].
  cbn [map load_chat_history]. unfold dict_item.
  destruct (to_dict_read_back m) as (Hr & Hc & Hn).
  rewrite Hr, Hc, Hn, IH. destruct m as [r n c]; simpl in *.
  assert (En : match n with
               | Some n0 => if String.eqb n0 "" then None else Some n0
               | None => None
               end = n).
  { destruct n as [n0 |]; [| reflexivity].
    destruct (String.eqb_spec n0 ""); [subst; congruence | reflexivity]. }
  rewrite En.
  assert (En' : name_of n = n) by exact En.
  rewrite En'. destruct Hrole as [-> | ->]; reflexivity.
Qed.

Lemma load_chat_history_to_dict_witness :
  load_chat_history (map to_dict [a_draft; a_critique]) = Ok [a_draft; a_critique].
Proof.
  apply (@load_chat_history_to_dict [a_draft; a_critique]).
  repeat constructor; simpl; discriminate.
Defined.

(** ** The call as a whole *)

(** X4: when an entry of the conversation has no ["role"] key, the call
    raises [KeyError] at once: no span is opened, nothing is yielded, no
    model is called, and the chat is as it was created. *)
Theorem process_conversation_unloadable (svc : Services) (writer critic : Agent)
    (user_id : string) (conversation_messages : list dict) (now : datetime) :
  (exists d, In d conversation_messages /\ dict_get d "role" = None) ->
  process_conversation svc writer critic user_id conversation_messages now
  = (new_session writer critic, [], Raise KeyError).
Proof.
  intros (d & Hin & Hrole).
  assert (Hload : load_chat_history conversation_messages = Raise KeyError).
  { rewrite load_chat_history_cases.
    destruct (forallb _ conversation_messages) eqn:Hall; [| reflexivity].
    rewrite forallb_forall in Hall. specialize (Hall d Hin).
    rewrite Hrole in Hall. discriminate. }
  unfold process_conversation, run_debate. run. rewrite Hload. reflexivity.
Qed.

Lemma process_conversation_unloadable_witness :
  process_conversation (scripted alternate "9") the_writer the_critic "alice"
    [ [("role", "user"); ("content", "Write a haiku.")]; [("content", "No role")] ]
    morning
  = (new_session the_writer the_critic, [], Raise KeyError).
Proof.
  apply (@process_conversation_unloadable (scripted alternate "9") the_writer the_critic
           "alice"
           [ [("role", "user"); ("content", "Write a haiku.")]; [("content", "No role")] ]
           morning).
  exists [("content", "No role")]. split; [simpl; auto | reflexivity].
Defined.

(** X5: a call that raises, for whatever reason (a service that fails, a
    selection that names nobody, no Writer turn), has yielded statuses only:
    the reply is never yielded by a call that fails. *)
Theorem process_conversation_failure_has_no_reply (svc : Services)
    (writer critic : Agent) (user_id : string) (conversation_messages : list dict)
    (now : datetime) (e : Exn) :
  let r := process_conversation svc writer critic user_id conversation_messages now in
  outcome_of r = Raise e ->
  Forall (fun y => is_status y = true) (yields (effects_of r)).
Proof.
  cbv zeta. rewrite process_conversation_cases.
  pose proof (run_debate_spec svc writer critic user_id conversation_messages now) as H.
  cbv zeta in H.
  destruct (run_debate svc user_id conversation_messages now _) as [[s1 t1] r1].
  unfold state_of, effects_of, outcome_of in *; simpl in H.
  assert (Hy : Forall (fun y => is_status y = true) (yields t1)).
  { destruct (load_chat_history conversation_messages).
    - destruct H as (turns & statuses & _ & -> & _).
      constructor; [reflexivity | apply all_status_map].
    - destruct H as (_ & -> & _). constructor. }
  destruct r1 as [u | e1]; simpl; [| intros _; exact Hy].
  destruct (last_item _) as [w | e1]; simpl; [discriminate |].
  intros _. rewrite app_nil_r. exact Hy.
Qed.

Lemma process_conversation_failure_has_no_reply_witness :
  let r := process_conversation extraction_down the_writer the_critic
             "alice" [] morning in
  Forall (fun y => is_status y = true) (yields (effects_of r)).
Proof.
  apply (@process_conversation_failure_has_no_reply extraction_down the_writer
           the_critic "alice" [] morning (ServiceError "rate limit")).
  reflexivity.
Defined.

(** X6: once the conversation has loaded, the first things a call does are
    to open the span named by the session identifier and to yield the
    initial status, before any model is called; this holds whether the
    debate then succeeds or fails. *)
Theorem process_conversation_opening (svc : Services) (writer critic : Agent)
    (user_id : string) (conversation_messages : list dict) (now : datetime)
    (chat_history : list ChatMessageContent) :
  load_chat_history conversation_messages = Ok chat_history ->
  exists rest,
    effects_of (process_conversation svc writer critic user_id conversation_messages now)
    = StartSpan (session_id user_id now) :: Yield (PlainText initial_status) :: rest.
Proof.
  intros Hload. rewrite process_conversation_cases.
  unfold run_debate, add_chat_messages, new_session. run. rewrite Hload. simpl.
  destruct (invoke_loop svc _ _) as [[s2 t2] [u | e]]; simpl.
  - destruct (last_item _); simpl; eexists; reflexivity.
  - eexists; reflexivity.
Qed.

Lemma process_conversation_opening_witness :
  exists rest,
    effects_of (process_conversation extraction_down the_writer the_critic
                  "alice" [] morning)
    = StartSpan (session_id "alice" morning) :: Yield (PlainText initial_status) :: rest.
Proof.
  apply (@process_conversation_opening extraction_down the_writer the_critic
           "alice" [] morning []).
  reflexivity.
Defined.

(** ** What a debate appends *)

(** A round, whatever its outcome: either it leaves the history and the
    counter as they are, or it appends one turn of the roster and moves the
    counter by one at most. *)
Lemma invoke_round_appends (svc : Services) (writer critic : Agent) (chat : AgentGroupChat) :
  orchestrated writer critic chat ->
  let r := invoke_round svc chat in
  (history (state_of r) = history chat
   /\ iteration (termination_strategy (state_of r))
      = iteration (termination_strategy chat))
  \/ (exists m, history (state_of r) = history chat ++ [m]
                /\ turn_of [writer; critic] m
                /\ iteration (termination_strategy chat)
                   <= iteration (termination_strategy (state_of r))
                   <= iteration (termination_strategy chat) + 1).
Proof.
  destruct chat as [ags sel [tags tmax tit] h done].
  unfold orchestrated; simpl. intros (-> & -> & -> & ->).
  unfold invoke_round, select_agent, invoke_agent, should_terminate,
    should_agent_terminate, create_selection_strategy, parse_selection_output, turn_of.
  run.
  repeat case_step;
    first [ left; split; reflexivity
          | right; eexists; split; [reflexivity |];
            split; [| simpl; lia];
            split; [reflexivity |];
            first [ exists writer; split; [simpl; auto | reflexivity]
                  | exists critic; split; [simpl; auto | reflexivity] ] ].
Qed.

(** The loop, whatever its outcome: the history grows by turns of the
    roster, at most one per round, and the counter by at most one per
    turn. *)
Lemma invoke_loop_appends (svc : Services) (writer critic : Agent) (n : nat) :
  forall s : Session,
    orchestrated writer critic (agent_group_chat s) ->
    let r := invoke_loop svc n s in
    exists turns,
      history (agent_group_chat (state_of r)) = history (agent_group_chat s) ++ turns
      /\ Forall (turn_of [writer; critic]) turns
      /\ (List.length turns <= n)%nat
      /\ iteration (termination_strategy (agent_group_chat s))
         <= iteration (termination_strategy (agent_group_chat (state_of r)))
         <= iteration (termination_strategy (agent_group_chat s))
            + Z.of_nat (List.length turns).
Proof.
  induction n as [| n IH]; intros s Hs.
  - unfold invoke_loop, ret, state_of. simpl. exists []. simpl.
    rewrite app_nil_r. repeat split; auto; lia.
  - cbv zeta. rewrite invoke_loop_S.
    pose proof (invoke_round_spec svc Hs) as Hround. cbv zeta in Hround.
    pose proof (invoke_round_appends svc Hs) as Happ. cbv zeta in Happ.
    destruct (invoke_round svc (agent_group_chat s)) as [[c1 t1] [a | e]];
      unfold state_of, effects_of, outcome_of in Hround, Happ;
      simpl in Hround, Happ; destruct Hround as (Hc1 & _ & Hh).
    + assert (Ha : turn_of [writer; critic] a
                   /\ iteration (termination_strategy (agent_group_chat s))
                      <= iteration (termination_strategy c1)
                      <= iteration (termination_strategy (agent_group_chat s)) + 1).
      { destruct Happ as [[E _] | (m & E & Hm & Hit)].
        - rewrite Hh in E. apply (f_equal (@List.length _)) in E.
          rewrite length_app in E. simpl in E. lia.
        - rewrite Hh in E. apply app_inj_tail in E. destruct E as [_ ->]. auto. }
      destruct Ha as [Ha Hit].
      cbv zeta.
      assert (Hone : exists turns,
                 history c1 = history (agent_group_chat s) ++ turns
                 /\ Forall (turn_of [writer; critic]) turns
                 /\ (List.length turns <= S n)%nat
                 /\ iteration (termination_strategy (agent_group_chat s))
                    <= iteration (termination_strategy c1)
                    <= iteration (termination_strategy (agent_group_chat s))
                       + Z.of_nat (List.length turns)).
      { exists [a]. simpl. repeat split; auto; try lia. }
      destruct (describe_next_action svc (messages s ++ [to_dict a])) as [next | e];
        [| exact Hone].
      destruct (is_complete c1); [exact Hone |]. clear Hone.
      specialize (IH {| agent_group_chat := c1;
                        messages := messages s ++ [to_dict a] |} Hc1).
      cbv zeta in IH.
      destruct (invoke_loop svc n _) as [[s2 t2] r2].
      unfold state_of in *; simpl in *.
      destruct IH as (turns & Hh2 & Hall & Hn & Hit2).
      exists (a :: turns). rewrite Hh2, Hh, <- app_assoc. simpl.
      repeat split; auto; try lia.
    + unfold state_of; simpl.
      destruct Happ as [[E Hit] | (m & E & Hm & Hit)].
      * exists []. rewrite E, Hit, app_nil_r. simpl. repeat split; auto; lia.
      * exists [m]. rewrite E. simpl. repeat split; auto; lia.
Qed.

(** Where a call leaves its chat: where the loop of six rounds leaves the
    chat that holds the loaded conversation. *)
Lemma process_conversation_state (svc : Services) (writer critic : Agent)
    (user_id : string) (conversation_messages : list dict) (now : datetime) :
  state_of (process_conversation svc writer critic user_id conversation_messages now)
  = match load_chat_history conversation_messages with
    | Ok seeded =>
        state_of (invoke_loop svc 6
                    {| agent_group_chat :=
                         set_history seeded (create_agent_group_chat writer critic);
                       messages := [] |})
    | Raise _ => new_session writer critic
    end.
Proof.
  rewrite process_conversation_cases.
  unfold run_debate, add_chat_messages, new_session. run.
  destruct (load_chat_history conversation_messages) as [seeded | e]; simpl;
    [| reflexivity].
  change (Pos.to_nat 6) with 6%nat.
  unfold set_agent_group_chat; simpl.
  destruct (invoke_loop svc 6 _) as [[s2 t2] [u | e]]; simpl; [| reflexivity].
  destruct (last_item _); reflexivity.
Qed.

(** X7: the history is append-only over a call, whatever its outcome: it is
    the loaded conversation followed by the turns of the debate, each of
    them an assistant message under the name of the Writer or of the
    Critic. *)
Theorem process_conversation_appends (svc : Services) (writer critic : Agent)
    (user_id : string) (conversation_messages : list dict) (now : datetime) :
  let r := process_conversation svc writer critic user_id conversation_messages now in
  exists turns,
    history (agent_group_chat (state_of r))
    = match load_chat_history conversation_messages with
      | Ok seeded => seeded
      | Raise _ => []
      end ++ turns
    /\ Forall (turn_of [writer; critic]) turns.
Proof.
  cbv zeta. rewrite process_conversation_state.
  destruct (load_chat_history conversation_messages) as [seeded | e].
  - match goal with
    | |- context [invoke_loop svc 6 ?s0] =>
        assert (H0 : orchestrated writer critic (agent_group_chat s0)) by (repeat split);
        destruct (invoke_loop_appends svc 6 s0 H0) as (turns & Hh & Hall & _)
    end.
    exists turns. split; [exact Hh | exact Hall].
  - exists []. split; [reflexivity | constructor].
Qed.

(** X8: over a call, whatever its outcome, the chat keeps the roster, the
    selection strategy and the termination settings it was created with, and
    the counter of the evaluator ends between 0 and the number of turns
    appended, hence at 6 at most. *)
Theorem process_conversation_keeps_configuration (svc : Services)
    (writer critic : Agent) (user_id : string) (conversation_messages : list dict)
    (now : datetime) :
  let chat := agent_group_chat
                (state_of (process_conversation svc writer critic user_id
                             conversation_messages now)) in
  orchestrated writer critic chat
  /\ 0 <= iteration (termination_strategy chat) <= 6
  /\ (List.length (history chat) <= List.length conversation_messages + 6)%nat.
Proof.
  cbv zeta. rewrite process_conversation_state.
  pose proof (@load_chat_history_length conversation_messages) as Hlen.
  destruct (load_chat_history conversation_messages) as [seeded | e].
  - pose proof (Hlen seeded eq_refl) as Hseeded.
    match goal with
    | |- context [invoke_loop svc 6 ?s0] =>
        assert (H0 : orchestrated writer critic (agent_group_chat s0)) by (repeat split);
        destruct (invoke_loop_appends svc 6 s0 H0) as (turns & Hh & _ & Hn & Hit);
        destruct (invoke_loop_spec svc 6 s0 H0) as (Hkept & _)
    end.
    simpl in Hh, Hit. rewrite Hh, length_app. repeat split; try apply Hkept; lia.
  - simpl. repeat split; lia.
Qed.

(** ** When a debate stops *)

(** A decision to stop comes from a score: the latest turn was read, the
    extraction model answered, and the answer read as a float of at least
    [8.0]. *)
Lemma should_agent_terminate_stop_inv (svc : Services) (agent : Agent)
    (history : list ChatMessageContent) (self : CompletionTerminationStrategy) :
  outcome_of (should_agent_terminate svc agent history self) = Ok true ->
  exists latest res_val score,
    last_item history = Ok latest
    /\ termination_function svc (content latest) = Ok res_val
    /\ float_of_text svc (str_result res_val) = Some score
    /\ float_ge score passing_score = true.
Proof.
  unfold should_agent_terminate. run.
  destruct (last_item history) as [latest |]; simpl; [| discriminate].
  destruct (termination_function svc (content latest)) as [res_val |] eqn:Hcall; simpl;
    [| discriminate].
  destruct (float_of_text svc (str_result res_val)) as [score |] eqn:Hscore; simpl;
    [| discriminate].
  intros H. inversion H as [Hge]. exists latest, res_val, score. rewrite Hge. auto.
Qed.

(** A round that sets the completion flag is a round of the Critic, on a
    score of at least [8.0]. *)
Lemma invoke_round_stop (svc : Services) (writer critic : Agent)
    (chat : AgentGroupChat) (m : ChatMessageContent) :
  orchestrated writer critic chat ->
  agent_id writer <> agent_id critic ->
  outcome_of (invoke_round svc chat) = Ok m ->
  is_complete (state_of (invoke_round svc chat)) = true ->
  name m = Some (agent_name critic)
  /\ exists res_val score,
       termination_function svc (content m) = Ok res_val
       /\ float_of_text svc (str_result res_val) = Some score
       /\ float_ge score passing_score = true.
Proof.
  intros Hchat Hid Hm Hdone.
  destruct (invoke_round_selected svc Hchat Hm)
    as (selected & output & evaluation & Hfind & Hsel & Hts & _).
  destruct Hchat as (_ & _ & Hagents & _).
  rewrite Hdone in Hts. simpl in Hfind.
  destruct (String.eqb (agent_name writer) (agent_name selected)).
  - inversion Hfind; subst selected.
    rewrite (@should_terminate_out_of_scope svc writer critic _ _ Hagents Hid) in Hts.
    discriminate.
  - destruct (String.eqb (agent_name critic) (agent_name selected)); [| discriminate].
    inversion Hfind; subst selected. split; [exact Hsel |].
    rewrite should_terminate_cases, Hagents in Hts. simpl in Hts.
    rewrite String.eqb_refl in Hts. simpl in Hts.
    assert (Hout : outcome_of (should_agent_terminate svc critic (history chat ++ [m])
                                 (termination_strategy chat)) = Ok true)
      by (rewrite Hts; reflexivity).
    destruct (should_agent_terminate_stop_inv _ _ _ _ Hout)
      as (latest & res_val & score & Hlast & Hcall & Hscore & Hge).
    rewrite last_item_app in Hlast. inversion Hlast; subst latest.
    exists res_val, score. auto.
Qed.

(** How a loop that ends normally ends: with the flag unset after all its
    rounds, or with the flag set by its last turn. *)
Lemma invoke_loop_end (svc : Services) (writer critic : Agent) (n : nat) :
  agent_id writer <> agent_id critic ->
  forall s : Session,
    orchestrated writer critic (agent_group_chat s) ->
    is_complete (agent_group_chat s) = false ->
    let r := invoke_loop svc n s in
    outcome_of r = Ok tt ->
    exists turns,
      history (agent_group_chat (state_of r)) = history (agent_group_chat s) ++ turns
      /\ ((is_complete (agent_group_chat (state_of r)) = false
           /\ List.length turns = n)
          \/ (is_complete (agent_group_chat (state_of r)) = true
              /\ exists earlier m res_val score,
                   turns = earlier ++ [m]
                   /\ name m = Some (agent_name critic)
                   /\ termination_function svc (content m) = Ok res_val
                   /\ float_of_text svc (str_result res_val) = Some score
                   /\ float_ge score passing_score = true)).
Proof.
  intros Hid. induction n as [| n IH]; intros s Hs Hrun.
  - unfold invoke_loop, ret, state_of, outcome_of. simpl. intros _.
    exists []. rewrite app_nil_r. auto.
  - cbv zeta. rewrite invoke_loop_S.
    pose proof (invoke_round_spec svc Hs) as Hround. cbv zeta in Hround.
    pose proof (@invoke_round_stop svc writer critic (agent_group_chat s)) as Hstop.
    destruct (invoke_round svc (agent_group_chat s)) as [[c1 t1] [a | e]];
      unfold state_of, effects_of, outcome_of in Hround, Hstop;
      simpl in Hround, Hstop; [| discriminate].
    destruct Hround as (Hc1 & _ & Hh).
    specialize (Hstop a Hs Hid eq_refl).
    cbv zeta.
    destruct (describe_next_action svc (messages s ++ [to_dict a])) as [next | e];
      [| discriminate].
    destruct (is_complete c1) eqn:Hdone.
    + unfold state_of, outcome_of; simpl. intros _. exists [a].
      split; [exact Hh |]. right. split; [exact Hdone |].
      destruct (Hstop eq_refl) as (Hname & res_val & score & H1 & H2 & H3).
      exists [], a, res_val, score. auto.
    + specialize (IH {| agent_group_chat := c1;
                        messages := messages s ++ [to_dict a] |} Hc1 Hdone).
      cbv zeta in IH.
      destruct (invoke_loop svc n _) as [[s2 t2] r2].
      unfold state_of, outcome_of in *; simpl in *.
      intros Hok. destruct (IH Hok) as (turns & Hh2 & Hend).
      exists (a :: turns). rewrite Hh2, Hh, <- app_assoc. split; [reflexivity |].
      destruct Hend as [[Hflag Hlen] | (Hflag & earlier & m & res_val & score & -> & Hrest)].
      * left. simpl. auto.
      * right. split; [exact Hflag |]. exists (a :: earlier), m, res_val, score. auto.
Qed.

(** X10: a call that succeeds has either run all six rounds without a
    decision to stop, or stopped right after a turn of the Critic for which
    the extraction model returned an answer that [float] reads as at least
    [8.0]; the debate never stops early on a turn of the Writer.  The identifiers of the two agents
    are taken to differ. *)
Theorem process_conversation_end (svc : Services) (writer critic : Agent)
    (user_id : string) (conversation_messages : list dict) (now : datetime) :
  agent_id writer <> agent_id critic ->
  let r := process_conversation svc writer critic user_id conversation_messages now in
  outcome_of r = Ok tt ->
  exists seeded turns,
    load_chat_history conversation_messages = Ok seeded
    /\ history (agent_group_chat (state_of r)) = seeded ++ turns
    /\ ((is_complete (agent_group_chat (state_of r)) = false
         /\ List.length turns = 6%nat)
        \/ (is_complete (agent_group_chat (state_of r)) = true
            /\ exists earlier m res_val score,
                 turns = earlier ++ [m]
                 /\ name m = Some (agent_name critic)
                 /\ termination_function svc (content m) = Ok res_val
                 /\ float_of_text svc (str_result res_val) = Some score
                 /\ float_ge score passing_score = true)).
Proof.
  intros Hid. cbv zeta. rewrite process_conversation_cases.
  unfold run_debate, add_chat_messages, new_session. run.
  destruct (load_chat_history conversation_messages) as [seeded | e]; simpl;
    [| discriminate].
  change (Pos.to_nat 6) with 6%nat.
  match goal with
  | |- context [invoke_loop svc 6 ?s0] =>
      assert (H0 : orchestrated writer critic (agent_group_chat s0))
        by (repeat split);
      pose proof (@invoke_loop_end svc writer critic 6 Hid s0 H0 eq_refl) as Hloop;
      cbv zeta in Hloop;
      destruct (invoke_loop svc 6 s0) as [[s2 t2] [u | e]]
  end; simpl; [| discriminate].
  destruct (last_item _) as [w | e]; simpl; [| discriminate].
  intros _. destruct u.
  unfold state_of, outcome_of in Hloop; simpl in Hloop.
  destruct (Hloop eq_refl) as (turns & Hh & Hend).
  exists seeded, turns. auto.
Qed.

Lemma process_conversation_end_witness :
  let r := process_conversation (scored ["5"; "6"; "9"]) the_writer the_critic
             "alice" [] morning in
  exists seeded turns,
    load_chat_history [] = Ok seeded
    /\ history (agent_group_chat (state_of r)) = seeded ++ turns
    /\ ((is_complete (agent_group_chat (state_of r)) = false
         /\ List.length turns = 6%nat)
        \/ (is_complete (agent_group_chat (state_of r)) = true
            /\ exists earlier m res_val score,
                 turns = earlier ++ [m]
                 /\ name m = Some (agent_name the_critic)
                 /\ termination_function (scored ["5"; "6"; "9"]) (content m) = Ok res_val
                 /\ float_of_text (scored ["5"; "6"; "9"]) (str_result res_val)
                    = Some score
                 /\ float_ge score passing_score = true)).
Proof.
  apply (@process_conversation_end (scored ["5"; "6"; "9"]) the_writer the_critic
           "alice" [] morning).
  - simpl. discriminate.
  - reflexivity.
Defined.

Lemma process_conversation_counter_witness :
  let r := process_conversation (scored ["5"; "6"; "9"]) the_writer the_critic
             "alice" [] morning in
  exists seeded turns,
    load_chat_history [] = Ok seeded
    /\ history (agent_group_chat (state_of r)) = seeded ++ turns
    /\ iteration (termination_strategy (agent_group_chat (state_of r)))
       = Z.of_nat (List.length (filter (name_is (agent_name the_critic)) turns)).
Proof.
  apply (@process_conversation_counter (scored ["5"; "6"; "9"]) the_writer the_critic
           "alice" [] morning).
  - simpl. discriminate.
  - simpl. discriminate.
  - reflexivity.
Defined.

(** ** Selection in a round *)

(** X11: when the parser does not return the name of an agent of the roster
    (an answer that names nobody, an empty answer, an empty list of
    messages), the round raises [AgentChatException]: no agent is invoked,
    the chat is left as it was, and the default agent is not used. *)
Theorem invoke_round_selection_fails (svc : Services) (writer critic : Agent)
    (chat : AgentGroupChat) (output : FunctionResult) :
  orchestrated writer critic chat ->
  selection_function svc [writer; critic] (history chat) = Ok output ->
  (forall a, In a [writer; critic] ->
     outcome_of (parse_selection_output critic output tt) <> Ok (agent_name a)) ->
  invoke_round svc chat
  = (chat, [KernelInvoke "SpeakerSelector" ""; LogSpeakerSelected output],
     Raise (AgentChatException "Failed to select agent")).
Proof.
  destruct chat as [ags sel ts h done].
  unfold orchestrated; simpl. intros (-> & -> & _ & _) Hcall Hnobody.
  assert (Hw := Hnobody writer (or_introl eq_refl)).
  assert (Hc := Hnobody critic (or_intror (or_introl eq_refl))).
  rewrite parse_selection_output_cases in Hw, Hc.
  unfold invoke_round, select_agent, create_selection_strategy, parse_selection_output.
  run. rewrite Hcall. simpl.
  destruct (value output) as [[| m0 rest] |]; simpl; [reflexivity | |].
  - destruct (String.eqb (content m0) ""); simpl; [reflexivity |].
    destruct (String.eqb_spec (agent_name writer) (content m0)) as [E | _];
      [congruence |].
    destruct (String.eqb_spec (agent_name critic) (content m0)) as [E | _];
      [congruence | reflexivity].
  - congruence.
Qed.

Lemma invoke_round_selection_fails_witness :
  invoke_round (scripted (fun _ => "Editor") "9")
    (create_agent_group_chat the_writer the_critic)
  = (create_agent_group_chat the_writer the_critic,
     [KernelInvoke "SpeakerSelector" ""; LogSpeakerSelected (answer "Editor")],
     Raise (AgentChatException "Failed to select agent")).
Proof.
  apply (@invoke_round_selection_fails (scripted (fun _ => "Editor") "9")
           the_writer the_critic (create_agent_group_chat the_writer the_critic)
           (answer "Editor")).
  - repeat split.
  - reflexivity.
  - intros a [<- | [<- | []]]; simpl; discriminate.
Defined.

(** X12: when the selection result carries no value, the agent invoked in
    the round is the Critic, the default agent, provided its name is not
    empty and is not the Writer's. *)
Theorem invoke_round_falls_back_to_critic (svc : Services) (writer critic : Agent)
    (chat : AgentGroupChat) :
  orchestrated writer critic chat ->
  selection_function svc [writer; critic] (history chat) = Ok {| value := None |} ->
  agent_name critic <> "" ->
  agent_name writer <> agent_name critic ->
  exists rest,
    effects_of (invoke_round svc chat)
    = KernelInvoke "SpeakerSelector" ""
      :: LogSpeakerSelected {| value := None |}
      :: AgentInvoke (agent_name critic) :: rest.
Proof.
  destruct chat as [ags sel ts h done].
  unfold orchestrated; simpl. intros (-> & -> & _ & _) Hcall Hempty Hname.
  unfold invoke_round, select_agent, invoke_agent, create_selection_strategy,
    parse_selection_output.
  run. rewrite Hcall. simpl.
  destruct (String.eqb_spec (agent_name critic) "") as [E | _]; [congruence |]. simpl.
  destruct (String.eqb_spec (agent_name writer) (agent_name critic)) as [E | _];
    [congruence |].
  rewrite String.eqb_refl. simpl.
  destruct (agent_reply svc critic h) as [text | e]; simpl; [| eexists; reflexivity].
  destruct (should_terminate svc critic _ ts) as [[sub t] [stop | e]]; simpl;
    eexists; reflexivity.
Qed.

Lemma invoke_round_falls_back_to_critic_witness :
  exists rest,
    effects_of (invoke_round
                  {| termination_function := fun _ => Ok (Some (answer "7"));
                     selection_function := fun _ _ => Ok {| value := None |};
                     agent_reply := fun a _ => Ok (agent_name a);
                     describe_next_action := fun _ => Ok "";
                     float_of_text := float_of_str |}
                  (create_agent_group_chat the_writer the_critic))
    = KernelInvoke "SpeakerSelector" ""
      :: LogSpeakerSelected {| value := None |}
      :: AgentInvoke (agent_name the_critic) :: rest.
Proof.
  apply (@invoke_round_falls_back_to_critic
           {| termination_function := fun _ => Ok (Some (answer "7"));
              selection_function := fun _ _ => Ok {| value := None |};
              agent_reply := fun a _ => Ok (agent_name a);
              describe_next_action := fun _ => Ok "";
              float_of_text := float_of_str |}
           the_writer the_critic (create_agent_group_chat the_writer the_critic)).
  - repeat split.
  - reflexivity.
  - simpl. discriminate.
  - simpl. discriminate.
Defined.

(** ** What a call can raise *)

(** A round raises the selection failure, or what a service raised. *)
Lemma invoke_round_raises (svc : Services) (writer critic : Agent)
    (chat : AgentGroupChat) (e : Exn) :
  orchestrated writer critic chat ->
  outcome_of (invoke_round svc chat) = Raise e ->
  e = AgentChatException "Failed to select agent"
  \/ (exists a h, agent_reply svc a h = Raise e)
  \/ (exists evaluation, termination_function svc evaluation = Raise e).
Proof.
  destruct chat as [ags sel [tags tmax tit] h done].
  unfold orchestrated; simpl. intros (-> & -> & -> & ->).
  unfold invoke_round, select_agent, invoke_agent, should_terminate,
    should_agent_terminate, create_selection_strategy, parse_selection_output.
  run.
  repeat case_step; intros H; try discriminate; inversion H; subst;
    first [ left; reflexivity
          | right; left; eexists; eexists; eassumption
          | right; right; eexists; eassumption
          | exfalso;
            match goal with
            | Hlast : last_item (_ ++ [_]) = Raise _ |- _ =>
                rewrite last_item_app in Hlast; discriminate
            end ].
Qed.

Lemma invoke_loop_raises (svc : Services) (writer critic : Agent) (n : nat) (e : Exn) :
  forall s : Session,
    orchestrated writer critic (agent_group_chat s) ->
    outcome_of (invoke_loop svc n s) = Raise e ->
    e = AgentChatException "Failed to select agent"
    \/ (exists a h, agent_reply svc a h = Raise e)
    \/ (exists evaluation, termination_function svc evaluation = Raise e)
    \/ (exists ms, describe_next_action svc ms = Raise e).
Proof.
  induction n as [| n IH]; intros s Hs.
  - unfold invoke_loop, ret, outcome_of. simpl. discriminate.
  - rewrite invoke_loop_S.
    pose proof (invoke_round_spec svc Hs) as Hround. cbv zeta in Hround.
    pose proof (@invoke_round_raises svc writer critic (agent_group_chat s)) as Hraise.
    destruct (invoke_round svc (agent_group_chat s)) as [[c1 t1] [a | e1]];
      unfold state_of, effects_of, outcome_of in Hround, Hraise;
      simpl in Hround, Hraise; destruct Hround as (Hc1 & _ & _).
    + cbv zeta.
      destruct (describe_next_action svc (messages s ++ [to_dict a])) as [next | e1] eqn:Hd.
      * destruct (is_complete c1); [discriminate |].
        specialize (IH {| agent_group_chat := c1;
                          messages := messages s ++ [to_dict a] |} Hc1).
        destruct (invoke_loop svc n _) as [[s2 t2] r2].
        unfold outcome_of in *; simpl in *. exact IH.
      * unfold outcome_of; simpl. intros H. inversion H; subst.
        right. right. right. eexists. exact Hd.
    + unfold outcome_of; simpl. intros H. inversion H; subst.
      destruct (Hraise e Hs eq_refl) as [E | [E | E]]; auto.
Qed.

(** Once the chat is created, a call raises one of four things and nothing
    else: the [KeyError] of a conversation entry without a role, the
    [AgentChatException] of a failed selection, the [IndexError] of a history
    without a Writer turn, or the exception that one of the services
    raised. *)
Lemma process_conversation_raises (svc : Services) (writer critic : Agent)
    (user_id : string) (conversation_messages : list dict) (now : datetime) (e : Exn) :
  outcome_of (process_conversation svc writer critic user_id conversation_messages now)
  = Raise e ->
  e = KeyError
  \/ e = AgentChatException "Failed to select agent"
  \/ e = IndexError
  \/ (exists a h, agent_reply svc a h = Raise e)
  \/ (exists evaluation, termination_function svc evaluation = Raise e)
  \/ (exists ms, describe_next_action svc ms = Raise e).
Proof.
  rewrite process_conversation_cases.
  unfold run_debate, add_chat_messages, new_session. run.
  pose proof (load_chat_history_cases conversation_messages) as Hload.
  destruct (load_chat_history conversation_messages) as [seeded | e0]; simpl.
  - change (Pos.to_nat 6) with 6%nat.
    match goal with
    | |- context [invoke_loop svc 6 ?s0] =>
        assert (H0 : orchestrated writer critic (agent_group_chat s0))
          by (repeat split);
        pose proof (@invoke_loop_raises svc writer critic 6 e s0 H0) as Hloop;
        destruct (invoke_loop svc 6 s0) as [[s2 t2] [u | e1]]
    end; simpl.
    + destruct (last_item _) as [w | e1] eqn:Hlast; simpl; [discriminate |].
      apply last_item_nil_inv in Hlast. destruct Hlast as [_ ->].
      intros H. inversion H. auto.
    + unfold outcome_of in Hloop; simpl in Hloop.
      intros H. inversion H; subst.
      destruct (Hloop eq_refl) as [E | [E | [E | E]]]; auto 7.
  - destruct (forallb _ conversation_messages); [discriminate |].
    inversion Hload; subst. intros H. inversion H. auto.
Qed.

Lemma process_conversation_raises_witness :
  ServiceError "rate limit" = KeyError
  \/ ServiceError "rate limit" = AgentChatException "Failed to select agent"
  \/ ServiceError "rate limit" = IndexError
  \/ (exists a h, agent_reply extraction_down a h = Raise (ServiceError "rate limit"))
  \/ (exists evaluation,
        termination_function extraction_down evaluation = Raise (ServiceError "rate limit"))
  \/ (exists ms, describe_next_action extraction_down ms = Raise (ServiceError "rate limit")).
Proof.
  apply (@process_conversation_raises extraction_down the_writer the_critic
           "alice" [] morning (ServiceError "rate limit")).
  reflexivity.
Defined.

(** ** Session identifiers *)

Lemma string_length_app (a b : string) :
  String.length (a ++ b)%string = (String.length a + String.length b)%nat.
Proof. induction a as [| c a IH]; simpl; [reflexivity | rewrite IH; reflexivity]. Qed.

(** Two strings that end in suffixes of the same length are equal only if
    the suffixes are, and what comes before them. *)
Lemma string_app_inj_suffix (u1 u2 s1 s2 : string) :
  String.length s1 = String.length s2 ->
  (u1 ++ s1 = u2 ++ s2)%string ->
  u1 = u2 /\ s1 = s2.
Proof.
  intros Hlen. revert u2. induction u1 as [| c u1 IH]; intros u2 H.
  - destruct u2 as [| c' u2]; [auto |].
    apply (f_equal String.length) in H. simpl in H.
    rewrite string_length_app in H. lia.
  - destruct u2 as [| c' u2].
    + apply (f_equal String.length) in H. simpl in H.
      rewrite string_length_app in H. lia.
    + simpl in H. inversion H as [[Hc Hrest]].
      destruct (IH u2 Hrest) as [-> ->]. auto.
Qed.

Lemma digit_char_inj (a b : Z) : digit_char a = digit_char b -> a mod 10 = b mod 10.
Proof.
  unfold digit_char. intros H. apply (f_equal nat_of_ascii) in H.
  assert (Ha : 0 <= a mod 10 < 10) by (apply Z.mod_pos_bound; lia).
  assert (Hb : 0 <= b mod 10 < 10) by (apply Z.mod_pos_bound; lia).
  rewrite !nat_ascii_embedding in H by lia. lia.
Qed.

Lemma pad2_inj (a b : Z) : 0 <= a <= 99 -> 0 <= b <= 99 -> pad2 a = pad2 b -> a = b.
Proof.
  intros Ha Hb H. unfold pad2 in H. inversion H as [[H1 H2]].
  apply digit_char_inj in H1, H2. Z.div_mod_to_equations. lia.
Qed.

Lemma pad4_inj (a b : Z) : 0 <= a <= 9999 -> 0 <= b <= 9999 -> pad4 a = pad4 b -> a = b.
Proof.
  intros Ha Hb H. unfold pad4, pad2 in H. inversion H as [[H1 H2 H3 H4]].
  apply digit_char_inj in H1, H2, H3, H4. Z.div_mod_to_equations. lia.
Qed.

(** X14: session identifiers tell users apart and tell seconds apart: two
    calls get the same identifier only if they have the same [user_id] and
    start within the same second of the same day; a [user_id] that contains
    dashes or looks like a time does not make two identifiers collide. *)
Theorem session_id_inj (user_id1 user_id2 : string) (t1 t2 : datetime) :
  valid_datetime t1 -> valid_datetime t2 ->
  session_id user_id1 t1 = session_id user_id2 t2 ->
  user_id1 = user_id2
  /\ year t1 = year t2 /\ month t1 = month t2 /\ day t1 = day t2
  /\ hour t1 = hour t2 /\ minute t1 = minute t2 /\ second t1 = second t2.
Proof.
  intros V1 V2 H. unfold session_id in H.
  apply string_app_inj_suffix in H; [| reflexivity].
  destruct H as [Hu H]. split; [exact Hu |].
  unfold valid_datetime in V1, V2.
  unfold strftime in H.
  remember (pad4 (year t1)) as y1 eqn:Ey1. remember (pad4 (year t2)) as y2 eqn:Ey2.
  assert (Hy : String.length y1 = 4%nat /\ String.length y2 = 4%nat)
    by (subst; split; reflexivity).
  destruct y1 as [| a1 [| a2 [| a3 [| a4 [| ? ?]]]]]; try (simpl in Hy; lia).
  destruct y2 as [| b1 [| b2 [| b3 [| b4 [| ? ?]]]]]; try (simpl in Hy; lia).
  unfold pad2 in H. cbn [append] in H.
  inversion H as [[E1 E2 E3 E4 M1 M2 D1 D2 H1 H2 N1 N2 S1 S2]].
  assert (Eyear : pad4 (year t1) = pad4 (year t2)) by congruence.
  apply pad4_inj in Eyear; [| lia | lia].
  apply digit_char_inj in M1, M2, D1, D2, H1, H2, N1, N2, S1, S2.
  repeat split; try exact Eyear; Z.div_mod_to_equations; lia.
Qed.

Lemma session_id_inj_witness :
  "alice" = "alice"
  /\ year morning = year same_second /\ month morning = month same_second
  /\ day morning = day same_second /\ hour morning = hour same_second
  /\ minute morning = minute same_second /\ second morning = second same_second.
Proof.
  apply (@session_id_inj "alice" "alice" morning same_second).
  - unfold valid_datetime. simpl. lia.
  - unfold valid_datetime. simpl. lia.
  - reflexivity.
Defined.

(** ** The endpoints of the chat clients *)

Lemma list_ascii_of_string_app (a b : string) :
  list_ascii_of_string (a ++ b) = list_ascii_of_string a ++ list_ascii_of_string b.
Proof. induction a as [| c a IH]; simpl; [reflexivity | rewrite IH; reflexivity]. Qed.

Lemma string_of_list_ascii_app (a b : list ascii) :
  string_of_list_ascii (a ++ b)
  = (string_of_list_ascii a ++ string_of_list_ascii b)%string.
Proof. induction a as [| c a IH]; simpl; [reflexivity | rewrite IH; reflexivity]. Qed.

Lemma lstrip_char_head (c : ascii) (cs : list ascii) (x : ascii) (rest : list ascii) :
  lstrip_char c cs = x :: rest -> x <> c.
Proof.
  induction cs as [| y cs IH]; simpl; [discriminate |].
  destruct (Ascii.eqb_spec y c) as [-> | Hy]; [exact IH |].
  intros H. inversion H; subst. exact Hy.
Qed.

Lemma lstrip_char_snoc (c : ascii) (cs : list ascii) :
  lstrip_char c (cs ++ [c])
  = match lstrip_char c cs with
    | [] => []
    | kept => kept ++ [c]
    end.
Proof.
  induction cs as [| y cs IH]; simpl.
  - rewrite Ascii.eqb_refl. reflexivity.
  - destruct (Ascii.eqb y c); [exact IH | reflexivity].
Qed.

Lemma strip_char_trailing (c : ascii) (s : string) :
  strip_char c (s ++ String c "") = strip_char c s.
Proof.
  unfold strip_char. rewrite list_ascii_of_string_app. simpl.
  rewrite lstrip_char_snoc.
  destruct (lstrip_char c (list_ascii_of_string s)) as [| x kept]; [reflexivity |].
  rewrite rev_app_distr. simpl. rewrite Ascii.eqb_refl. reflexivity.
Qed.

Lemma strip_char_leading (c : ascii) (s : string) :
  strip_char c (String c s) = strip_char c s.
Proof. unfold strip_char. simpl. rewrite Ascii.eqb_refl. reflexivity. Qed.

(** X15: the endpoints that [__init__] builds do not depend on slashes
    around [AZURE_OPENAI_ENDPOINT]: a value with one more slash at the end,
    or at the start, gives the same orchestrator. *)
Theorem DebateOrchestrator_init_slashes (endpoint : string) (environ : dict) :
  DebateOrchestrator_init (("AZURE_OPENAI_ENDPOINT", endpoint ++ "/")%string :: environ)
  = DebateOrchestrator_init (("AZURE_OPENAI_ENDPOINT", endpoint) :: environ)
  /\ DebateOrchestrator_init (("AZURE_OPENAI_ENDPOINT", "/" ++ endpoint)%string :: environ)
     = DebateOrchestrator_init (("AZURE_OPENAI_ENDPOINT", endpoint) :: environ).
Proof.
  unfold DebateOrchestrator_init, deployment_endpoint. simpl.
  rewrite strip_char_trailing, strip_char_leading. split; reflexivity.
Qed.

Lemma lstrip_char_suffix (c : ascii) (cs : list ascii) :
  exists dropped, cs = dropped ++ lstrip_char c cs.
Proof.
  induction cs as [| y cs [dropped IH]]; simpl; [exists []; reflexivity |].
  destruct (Ascii.eqb y c).
  - exists (y :: dropped). simpl. rewrite <- IH. reflexivity.
  - exists []. reflexivity.
Qed.

(** What [strip] returns neither starts nor ends with the character. *)
Lemma strip_char_ends (c : ascii) (s : string) :
  (forall rest, strip_char c s <> String c rest)
  /\ (forall front, strip_char c s <> (front ++ String c "")%string).
Proof.
  unfold strip_char.
  set (kept := lstrip_char c (list_ascii_of_string s)).
  split.
  - intros rest H. apply (f_equal list_ascii_of_string) in H.
    rewrite list_ascii_of_string_of_list_ascii in H. simpl in H.
    apply (f_equal (@rev ascii)) in H. rewrite rev_involutive in H. simpl in H.
    destruct (lstrip_char_suffix c (rev kept)) as [dropped Hsuffix].
    rewrite H in Hsuffix.
    apply (f_equal (@rev ascii)) in Hsuffix. rewrite rev_involutive in Hsuffix.
    rewrite !rev_app_distr in Hsuffix. simpl in Hsuffix.
    unfold kept in Hsuffix. apply lstrip_char_head in Hsuffix. congruence.
  - intros front H. apply (f_equal list_ascii_of_string) in H.
    rewrite list_ascii_of_string_of_list_ascii, list_ascii_of_string_app in H.
    simpl in H.
    apply (f_equal (@rev ascii)) in H. rewrite rev_involutive, rev_app_distr in H.
    simpl in H. apply lstrip_char_head in H. congruence.
Qed.

(** X16: each endpoint is a base, the fixed path and the deployment name;
    the base neither starts nor ends with a slash, so the path is joined by
    exactly its own slash; with [AZURE_OPENAI_ENDPOINT] unset the base is the
    text [None] and nothing is raised, and an unset deployment name is
    written [None] as well. *)
Theorem DebateOrchestrator_init_endpoints (environ : dict) :
  exists base,
    executor_endpoint (DebateOrchestrator_init environ)
    = (base ++ "/openai/deployments/"
       ++ str_env (dict_get environ "EXECUTOR_AZURE_OPENAI_DEPLOYMENT_NAME"))%string
    /\ utility_endpoint (DebateOrchestrator_init environ)
       = (base ++ "/openai/deployments/"
          ++ str_env (dict_get environ "UTILITY_AZURE_OPENAI_DEPLOYMENT_NAME"))%string
    /\ (forall rest, base <> String "/" rest)
    /\ (forall front, base <> (front ++ "/")%string)
    /\ (dict_get environ "AZURE_OPENAI_ENDPOINT" = None -> base = "None").
Proof.
  exists (strip_char "/" (str_env (dict_get environ "AZURE_OPENAI_ENDPOINT"))).
  destruct (strip_char_ends "/" (str_env (dict_get environ "AZURE_OPENAI_ENDPOINT")))
    as [Hstart Hend].
  repeat split; auto.
  intros ->. reflexivity.
Qed.

(** ** The roster in the selection prompt *)

Lemma string_app_assoc (a b c : string) : ((a ++ b) ++ c = a ++ (b ++ c))%string.
Proof. induction a as [| x a IH]; simpl; [reflexivity | rewrite IH; reflexivity]. Qed.

Lemma string_app_empty_r (a : string) : (a ++ "")%string = a.
Proof. induction a as [| x a IH]; simpl; [reflexivity | rewrite IH; reflexivity]. Qed.

Lemma join_in (sep : string) (xs : list string) (x : string) :
  In x xs -> exists before after, join sep xs = (before ++ x ++ after)%string.
Proof.
  induction xs as [| y xs IH]; [intros [] |].
  intros [-> | Hin].
  - exists "". destruct xs as [| z xs].
    + exists "". simpl. rewrite string_app_empty_r. reflexivity.
    + exists (sep ++ join sep (z :: xs))%string. reflexivity.
  - destruct xs as [| z xs]; [destruct Hin |].
    destruct (IH Hin) as (before & after & E).
    exists (y ++ sep ++ before)%string, after.
    change (join sep (y :: z :: xs)) with (y ++ sep ++ join sep (z :: xs))%string.
    rewrite E, !string_app_assoc. reflexivity.
Qed.

(** X17: the text of the available agents that goes into the selection
    prompt names every agent of the roster: for each agent it holds the line
    made of the name, a colon and the description. *)
Theorem definitions_lists_every_agent (agents : list Agent) (agent : Agent) :
  In agent agents ->
  exists before after,
    definitions agents
    = (before ++ (agent_name agent ++ ": " ++ agent_description agent) ++ after)%string.
Proof.
  intros Hin. unfold definitions. apply join_in.
  apply (in_map (fun a => (agent_name a ++ ": " ++ agent_description a)%string)) in Hin.
  exact Hin.
Qed.

Lemma definitions_lists_every_agent_witness :
  exists before after,
    definitions [the_writer; the_critic]
    = (before ++ (agent_name the_critic ++ ": " ++ agent_description the_critic)
       ++ after)%string.
Proof.
  apply (@definitions_lists_every_agent [the_writer; the_critic] the_critic).
  simpl. auto.
Defined.

Example definitions_of_the_roster :
  definitions [the_writer; the_critic]
  = ("Writer: Writes and revises the draft" ++ newline
     ++ "Critic: Scores the draft")%string.
Proof. reflexivity. Qed.

Example deployment_endpoint_of_a_resource :
  deployment_endpoint (Some "https://debate.openai.azure.com/") (Some "gpt-4o")
  = "https://debate.openai.azure.com/openai/deployments/gpt-4o".
Proof. reflexivity. Qed.

(** ** The length of the stream *)

(** X18: whatever happens, a call yields at most eight values: the initial
    status, at most six statuses of turns, and at most one reply. *)
Theorem process_conversation_stream_bounded (svc : Services) (writer critic : Agent)
    (user_id : string) (conversation_messages : list dict) (now : datetime) :
  (List.length
     (yields (effects_of (process_conversation svc writer critic user_id
                            conversation_messages now))) <= 8)%nat.
Proof.
  rewrite process_conversation_cases.
  pose proof (run_debate_spec svc writer critic user_id conversation_messages now) as H.
  cbv zeta in H.
  destruct (run_debate svc user_id conversation_messages now _) as [[s1 t1] r1].
  unfold state_of, effects_of, outcome_of in *; simpl in H.
  assert (Hy : (List.length (yields t1) <= 7)%nat).
  { destruct (load_chat_history conversation_messages).
    - destruct H as (turns & statuses & _ & -> & Hn & Hle & _).
      simpl. rewrite length_map. lia.
    - destruct H as (_ & -> & _). simpl. lia. }
  destruct r1 as [u | e]; simpl; [| lia].
  destruct (last_item _) as [w | e]; simpl; rewrite yields_app, length_app; simpl; lia.
Qed.

(** ** White space around a score *)

Lemma lstrip_spaces (w cs : list ascii) :
  Forall (fun c => is_space c = true) w -> lstrip (w ++ cs) = lstrip cs.
Proof.
  induction 1 as [| c w Hc _ IH]; simpl; [reflexivity |].
  rewrite Hc. exact IH.
Qed.

Lemma lstrip_all_spaces (w : list ascii) :
  Forall (fun c => is_space c = true) w -> lstrip w = [].
Proof.
  intros H. rewrite <- (app_nil_r w). rewrite lstrip_spaces by exact H. reflexivity.
Qed.

Lemma lstrip_empty_inv (cs : list ascii) :
  lstrip cs = [] -> Forall (fun c => is_space c = true) cs.
Proof.
  induction cs as [| c cs IH]; simpl; [constructor |].
  destruct (is_space c) eqn:Hc; [| discriminate].
  intros H. constructor; auto.
Qed.

Lemma lstrip_kept_app (cs tail : list ascii) :
  lstrip cs <> [] -> lstrip (cs ++ tail) = lstrip cs ++ tail.
Proof.
  induction cs as [| c cs IH]; simpl; [congruence |].
  destruct (is_space c); [exact IH | reflexivity].
Qed.

Lemma strip_spaces (w1 cs w2 : list ascii) :
  Forall (fun c => is_space c = true) w1 ->
  Forall (fun c => is_space c = true) w2 ->
  strip (w1 ++ cs ++ w2) = strip cs.
Proof.
  intros H1 H2. unfold strip. rewrite (lstrip_spaces _ H1).
  destruct (lstrip cs) as [| x kept] eqn:E.
  - apply lstrip_empty_inv in E.
    rewrite (@lstrip_all_spaces (cs ++ w2)); [reflexivity |].
    apply Forall_app. split; assumption.
  - rewrite lstrip_kept_app by congruence. rewrite E, rev_app_distr.
    rewrite lstrip_spaces; [reflexivity |].
    apply Forall_rev. exact H2.
Qed.

(** X19: for an answer in ASCII text, white space around it does not change
    how [float] reads it: spaces, tabs, line feeds, vertical tabs, form feeds
    and carriage returns before and after the text are dropped before the
    number is read, so a score followed by a line end gives the same float,
    or fails alike.  The separator bytes 28 to 31 are not white space here. *)
Theorem float_of_str_ignores_white_space (before s after : string) :
  is_ascii_text s ->
  Forall (fun c => is_space c = true) (list_ascii_of_string before) ->
  Forall (fun c => is_space c = true) (list_ascii_of_string after) ->
  float_of_str (before ++ s ++ after) = float_of_str s.
Proof.
  intros _ Hb Ha. unfold float_of_str.
  rewrite !list_ascii_of_string_app, strip_spaces by assumption.
  reflexivity.
Qed.

Lemma float_of_str_ignores_white_space_witness :
  float_of_str (" " ++ "8.5" ++ newline) = float_of_str "8.5".
Proof.
  apply (@float_of_str_ignores_white_space " " "8.5" newline).
  - unfold is_ascii_text. simpl. repeat constructor; simpl; lia.
  - repeat constructor.
  - repeat constructor.
Defined.

(** ** What a call can raise, loaders included *)

(** X13: a call of [process_conversation] raises one of five things and
    nothing else: what a loader of [create_agent_group_chat] raised (before
    anything is done), the [KeyError] of a conversation entry without a
    role, the [AgentChatException] of a failed selection, the [IndexError] of
    a history without a Writer turn, or the exception that one of the
    services raised (an agent, the extraction model, or the description of
    the next action); an answer that [float] cannot read is not among
    them. *)
Theorem process_conversation_call_raises (loaders : Loaders) (svc : Services)
    (user_id : string) (conversation_messages : list dict) (now : datetime) (e : Exn) :
  snd (process_conversation_call loaders svc user_id conversation_messages now)
  = Raise e ->
  create_agent_from_yaml loaders = Raise e
  \/ create_ai_foundry_agent_from_yaml loaders = Raise e
  \/ e = KeyError
  \/ e = AgentChatException "Failed to select agent"
  \/ e = IndexError
  \/ (exists a h, agent_reply svc a h = Raise e)
  \/ (exists evaluation, termination_function svc evaluation = Raise e)
  \/ (exists ms, describe_next_action svc ms = Raise e).
Proof.
  unfold process_conversation_call.
  destruct (create_agent_from_yaml loaders) as [writer | e1]; simpl.
  - destruct (create_ai_foundry_agent_from_yaml loaders) as [critic | e2]; simpl.
    + intros H. right. right.
      exact (process_conversation_raises svc writer critic user_id
               conversation_messages now H).
    + intros H. inversion H. right. left. reflexivity.
  - intros H. inversion H. left. reflexivity.
Qed.

Lemma process_conversation_call_raises_witness :
  create_agent_from_yaml
    {| create_agent_from_yaml := Ok the_writer;
       create_ai_foundry_agent_from_yaml := Raise (ServiceError "provisioning") |}
  = Raise (ServiceError "provisioning")
  \/ create_ai_foundry_agent_from_yaml
       {| create_agent_from_yaml := Ok the_writer;
          create_ai_foundry_agent_from_yaml := Raise (ServiceError "provisioning") |}
     = Raise (ServiceError "provisioning")
  \/ ServiceError "provisioning" = KeyError
  \/ ServiceError "provisioning" = AgentChatException "Failed to select agent"
  \/ ServiceError "provisioning" = IndexError
  \/ (exists a h, agent_reply (scripted alternate "9") a h
                   = Raise (ServiceError "provisioning"))
  \/ (exists evaluation, termination_function (scripted alternate "9") evaluation
                         = Raise (ServiceError "provisioning"))
  \/ (exists ms, describe_next_action (scripted alternate "9") ms
                 = Raise (ServiceError "provisioning")).
Proof.
  apply (@process_conversation_call_raises
           {| create_agent_from_yaml := Ok the_writer;
              create_ai_foundry_agent_from_yaml := Raise (ServiceError "provisioning") |}
           (scripted alternate "9") "alice" [] morning (ServiceError "provisioning")).
  reflexivity.
Defined.
